(** * weather-pipeline: the ingestion pipeline of [data_ingestion.py]

    A shallow embedding of the pipeline
    location -> bounding box -> grid -> fetch -> normalize -> serialize -> load
    and the properties its specification states about it.

    Conventions of the embedding.
    - A Python [str] is a [string], its characters the code points below
      256; an [int] is a [Z]; a [float] (the values are float32 readings
      widened to Python floats) is a primitive [float].
    - An instant is the number of seconds since the epoch, a [Z]; the bounds of
      the nanosecond representation pandas uses are not modelled.
    - An exception is identified by the name of its class.
    - Everything outside the process (the geocoder, the weather provider, the
      warehouse, the file system, the clock) is an [Env] of oracles over a
      state [W] of the outside world; every call to one of them is written to
      a log, in the order the calls are made.
    - [print] is not modelled: the progress report has no effect the
      properties below depend on (the indexing it performs has, and is
      modelled). *)

From Stdlib Require Import ZArith List String Ascii Bool Lia Floats.
Import ListNotations.
Local Open Scope string_scope.
Local Open Scope Z_scope.

(** ** Exceptions and results *)

Inductive exn : Type := Exn (cls : string).

Definition IndexError : exn := Exn "IndexError".
Definition KeyError : exn := Exn "KeyError".
Definition ValueError : exn := Exn "ValueError".
Definition AttributeError : exn := Exn "AttributeError".

(** The error classes of the specification's taxonomy.  The program defines
    no exception class of its own; these names only occur in statements that
    compare them with what the program raises. *)
Definition ResolutionError : exn := Exn "ResolutionError".
Definition NormalizationError : exn := Exn "NormalizationError".

Inductive result (A : Type) : Type :=
| Ok (a : A)
| Raise (e : exn).
Arguments Ok {A} a.
Arguments Raise {A} e.

(** The pure fragment: a computation that returns or raises. *)
Definition rbind {A B} (r : result A) (f : A -> result B) : result B :=
  match r with
  | Ok a => f a
  | Raise e => Raise e
  end.

(** ** Python values that cross the process boundary *)

(** The values of a request's parameter dict. *)
Inductive pyval : Type :=
| PStr (s : string)
| PInt (n : Z)
| PStrs (l : list string)
| PFloats (l : list float).

(** A dict with string keys, in insertion order. *)
Definition dict (V : Type) : Type := list (string * V).

Fixpoint dict_get {V} (d : dict V) (k : string) : option V :=
  match d with
  | [] => None
  | (k', v) :: d' => if String.eqb k' k then Some v else dict_get d' k
  end.

(** [d[k] = v]: the value of an existing key is replaced in place, a new key
    goes to the end. *)
Fixpoint dict_set {V} (d : dict V) (k : string) (v : V) : dict V :=
  match d with
  | [] => [(k, v)]
  | (k', v') :: d' =>
      if String.eqb k' k then (k, v) :: d' else (k', v') :: dict_set d' k v
  end.

Definition params : Type := dict pyval.

(** ** The data model *)

(** A location is a (city, state) tuple or a free-form string. *)
Inductive location : Type :=
| CityState (city state : string)
| FreeForm (q : string).

Definition LOCATIONS : list location :=
  [ CityState "Atlanta" "Georgia";
    CityState "New York" "New York";
    CityState "Washington" "DC";
    CityState "San Francisco" "CA";
    FreeForm "Daniel Boone National Forest, USA" ].

(** A candidate of the geocoder's answer: a JSON object, of which the program
    reads the key ["boundingbox"] only. *)
Record candidate : Type := { boundingbox : option (list string) }.

Record bbox : Type := {
  south_lat : string;
  north_lat : string;
  west_lon : string;
  east_lon : string
}.

(** The hourly block of a response.  [Variables i] is what
    [hourly.Variables(i).ValuesAsNumpy()] returns.  The interval is a positive
    number of seconds; what pandas does with a zero or negative step is not
    modelled. *)
Record hourly : Type := {
  Time : Z;
  TimeEnd : Z;
  Interval : positive;
  Variables : nat -> list float
}.

Record response : Type := {
  Latitude : float;
  Longitude : float;
  Hourly : hourly
}.

(** A row of the table built for one grid point. *)
Record row : Type := {
  timestamp : Z;
  location_label : string;
  latitude : float;
  longitude : float;
  temperature_2m : float;
  is_day : float;
  precipitation_probability : float;
  precipitation : float
}.

Definition DataFrame : Type := list row.

(** [datetime]: the fields of a Python datetime object. *)
Record datetime : Type := {
  year : Z;
  month : Z;
  day : Z;
  hour : Z;
  minute : Z;
  second : Z;
  microsecond : Z
}.

Inductive connection : Type := Connection (id : Z).
Inductive cursor : Type := Cursor (id : Z).

(** ** Pure helpers of the Python runtime *)

Module PureNotation.
Notation "x <-? e ;; k" := (rbind e (fun x => k))
  (at level 61, e at next level, right associativity).
End PureNotation.
Import PureNotation.

(** [l[i]]: an index out of range raises [IndexError]. *)
Definition py_index {A} (l : list A) (i : nat) : result A :=
  match nth_error l i with
  | Some x => Ok x
  | None => Raise IndexError
  end.

(** [d[k]] on a dict that may lack the key. *)
Definition py_key {A} (field : option A) : result A :=
  match field with
  | Some x => Ok x
  | None => Raise KeyError
  end.

(** [s.replace(c, by)] for a one-character pattern. *)
Fixpoint replace_char (c : ascii) (by_ : string) (s : string) : string :=
  match s with
  | EmptyString => EmptyString
  | String a s' =>
      if Ascii.eqb a c then by_ ++ replace_char c by_ s'
      else String a (replace_char c by_ s')
  end.

Fixpoint join (sep : string) (l : list string) : string :=
  match l with
  | [] => ""
  | [x] => x
  | x :: l' => x ++ sep ++ join sep l'
  end.

(** [os.path.join(a, b)] on a POSIX system. *)
Definition starts_with_slash (s : string) : bool :=
  match s with
  | String a _ => Ascii.eqb a "/"%char
  | EmptyString => false
  end.

Fixpoint ends_with_slash (s : string) : bool :=
  match s with
  | EmptyString => false
  | String a EmptyString => Ascii.eqb a "/"%char
  | String _ s' => ends_with_slash s'
  end.

Definition path_join (a b : string) : string :=
  if starts_with_slash b then b
  else if (String.eqb a "" || ends_with_slash a)%bool then a ++ b
  else a ++ "/" ++ b.

(** Decimal fields of fixed width, as [strftime] and pandas print them. *)
Definition digit (n : Z) : ascii := ascii_of_nat (48 + Z.to_nat n).

Definition pad2 (n : Z) : string :=
  String (digit (n / 10)) (String (digit (n mod 10)) EmptyString).

Definition pad4 (n : Z) : string :=
  String (digit (n / 1000)) (String (digit (n / 100 mod 10)) (pad2 (n mod 100))).

(** [t.strftime("%Y%m%d_%H%M%S")]: the microsecond is not printed. *)
Definition strftime_stamp (t : datetime) : string :=
  pad4 (year t) ++ pad2 (month t) ++ pad2 (day t) ++ "_"
  ++ pad2 (hour t) ++ pad2 (minute t) ++ pad2 (second t).

(** The civil date of a day number counted from 1970-01-01. *)
Definition civil_from_days (z : Z) : Z * Z * Z :=
  let z := z + 719468 in
  let era := z / 146097 in
  let doe := z - era * 146097 in
  let yoe := (doe - doe / 1460 + doe / 36524 - doe / 146096) / 365 in
  let doy := doe - (365 * yoe + yoe / 4 - yoe / 100) in
  let mp := (5 * doy + 2) / 153 in
  let d := doy - (153 * mp + 2) / 5 + 1 in
  let m := if mp <? 10 then mp + 3 else mp - 9 in
  let y := yoe + era * 400 in
  (if m <=? 2 then y + 1 else y, m, d).

(** [str] of a UTC pandas timestamp, what [astype(str)] puts in the column. *)
Definition astype_str (t : Z) : string :=
  let '(y, m, d) := civil_from_days (t / 86400) in
  let s := t mod 86400 in
  pad4 y ++ "-" ++ pad2 m ++ "-" ++ pad2 d ++ " "
  ++ pad2 (s / 3600) ++ ":" ++ pad2 (s / 60 mod 60) ++ ":" ++ pad2 (s mod 60)
  ++ "+00:00".

(** ** LocationResolver: the pure part of [get_bbox] *)

Definition nominatim_url : string := "https://nominatim.openstreetmap.org/search".

Definition bbox_params (loc : location) : params :=
  match loc with
  | CityState city state =>
      [("city", PStr city); ("state", PStr state);
       ("format", PStr "json"); ("limit", PInt 1)]
  | FreeForm q =>
      [("q", PStr q); ("format", PStr "json"); ("limit", PInt 1)]
  end.

(** From [resp.json()] to the returned dict: [resp.json()[0]], then
    [result["boundingbox"]], then the four indexings. *)
Definition bbox_of_json (answer : list candidate) : result bbox :=
  result <-? py_index answer 0 ;;
  bb <-? py_key (boundingbox result) ;;
  s <-? py_index bb 0 ;;
  n <-? py_index bb 1 ;;
  w <-? py_index bb 2 ;;
  e <-? py_index bb 3 ;;
  Ok {| south_lat := s; north_lat := n; west_lon := w; east_lon := e |}.

(** ** GridResolver and WeatherFetcher: the requests *)

Definition forecast_url : string := "https://api.open-meteo.com/v1/forecast".

Definition grid_params (box : bbox) : params :=
  [("bounding_box",
    PStr (south_lat box ++ "," ++ west_lon box ++ ","
          ++ north_lat box ++ "," ++ east_lon box));
   ("models", PStr "icon_global");
   ("forecast_hours", PInt 0)].

Definition weather_params (latitudes longitudes : list float) (mode : string)
  : params :=
  let params :=
    [("latitude", PFloats latitudes);
     ("longitude", PFloats longitudes);
     ("hourly", PStrs ["temperature_2m"; "is_day";
                       "precipitation_probability"; "precipitation"]);
     ("wind_speed_unit", PStr "mph");
     ("temperature_unit", PStr "fahrenheit");
     ("precipitation_unit", PStr "inch")] in
  if String.eqb mode "history" then
    dict_set (dict_set params "past_hours" (PInt 24)) "forecast_hours" (PInt 0)
  else
    dict_set (dict_set params "past_hours" (PInt 0)) "forecast_hours" (PInt 1).

(** ** RecordNormalizer: [parse_responses] *)

(** [numpy.arange(start, stop, step)] for a positive step. *)
Definition arange (start stop step : Z) : list Z :=
  map (fun k => start + Z.of_nat k * step)
      (seq 0 (Z.to_nat ((stop - start + step - 1) / step))).

(** pandas' regular range: the instants [s], [s + d], ... up to and
    including the last one that is not after [e]. *)
Definition generate_regular_range (s e d : Z) : list Z :=
  arange s (s + (e - s) / d * d + d / 2 + 1) d.

(** [pd.date_range(start=s, end=e, freq=d, inclusive="left")]: pandas makes
    the regular range and, the right side not being inclusive, drops its
    last instant when that is the end bound.  The index is half-open: a
    window whose start is its end has no instant. *)
Definition date_range (s e : Z) (d : positive) : list Z :=
  let values := generate_regular_range s e (Z.pos d) in
  match values with
  | [] => values
  | _ :: _ => if last values 0 =? e then removelast values else values
  end.

Fixpoint zip_rows (label : string) (lat lon : float) (ts : list Z)
    (a0 a1 a2 a3 : list float) : list row :=
  match ts, a0, a1, a2, a3 with
  | t :: ts', x0 :: a0', x1 :: a1', x2 :: a2', x3 :: a3' =>
      {| timestamp := t; location_label := label;
         latitude := lat; longitude := lon;
         temperature_2m := x0; is_day := x1;
         precipitation_probability := x2; precipitation := x3 |}
      :: zip_rows label lat lon ts' a0' a1' a2' a3'
  | _, _, _, _, _ => []
  end.

(** The arrays of the column dict all have the length of the index. *)
Definition same_length (ts : list Z) (a0 a1 a2 a3 : list float) : bool :=
  (Nat.eqb (List.length a0) (List.length ts) && Nat.eqb (List.length a1) (List.length ts)
   && Nat.eqb (List.length a2) (List.length ts) && Nat.eqb (List.length a3) (List.length ts))%bool.

(** [pd.DataFrame(data=hourly_data)]: the scalars (label, latitude,
    longitude) are repeated on every row; arrays of different lengths raise
    [ValueError]. *)
Definition mk_DataFrame (ts : list Z) (label : string) (lat lon : float)
    (a0 a1 a2 a3 : list float) : result DataFrame :=
  if same_length ts a0 a1 a2 a3
  then Ok (zip_rows label lat lon ts a0 a1 a2 a3)
  else Raise ValueError.

Definition timestamps (r : response) : list Z :=
  let hourly := Hourly r in
  date_range (Time hourly) (TimeEnd hourly) (Interval hourly).

(** The body of the loop of [parse_responses]. *)
Definition parse_response (r : response) (label : string) : result DataFrame :=
  let hourly := Hourly r in
  mk_DataFrame (timestamps r) label (Latitude r) (Longitude r)
    (Variables hourly 0%nat) (Variables hourly 1%nat)
    (Variables hourly 2%nat) (Variables hourly 3%nat).

Fixpoint parse_responses (responses : list response) (label : string)
  : result (list DataFrame) :=
  match responses with
  | [] => Ok []
  | r :: rs =>
      df <-? parse_response r label ;;
      dataframes <-? parse_responses rs label ;;
      Ok (df :: dataframes)
  end.

(** [df["latitude"].iloc[0]], evaluated for every table before the batch is
    serialized: a table without rows raises [IndexError]. *)
Definition first_latitude (df : DataFrame) : result float :=
  r <-? py_index df 0 ;; Ok (latitude r).

Fixpoint report_tables (dataframes : list DataFrame) : result unit :=
  match dataframes with
  | [] => Ok tt
  | df :: dfs => _ <-? first_latitude df ;; report_tables dfs
  end.

(** ** Serializer: names and JSON text *)

Definition label_of (loc : location) : string :=
  match loc with
  | FreeForm s => s
  | CityState city state => city ++ ", " ++ state
  end.

(** [location_label.replace(" ", "_").replace(",", "")] *)
Definition safe_label (label : string) : string :=
  replace_char "," "" (replace_char " " "_" label).

Definition batch_filename (label mode : string) (now : datetime) : string :=
  safe_label label ++ "_" ++ mode ++ "_" ++ strftime_stamp now ++ ".json".

(** A value of a record handed to [json.dumps]. *)
Inductive jval : Type :=
| JStr (s : string)
| JNum (x : float).

Definition dquote : ascii := ascii_of_nat 34.
Definition backslash : ascii := ascii_of_nat 92.

Definition hex_digit (n : nat) : ascii :=
  if Nat.ltb n 10 then ascii_of_nat (48 + n) else ascii_of_nat (87 + n).

(** What [json.dumps] (with [ensure_ascii], the default) writes for one
    character of a string: the two-character escapes, the six-character
    escape for every other character outside the printable ASCII range, the
    character itself otherwise. *)
Definition escape_char (c : ascii) : string :=
  let n := nat_of_ascii c in
  if Nat.eqb n 34 then String backslash (String dquote "")
  else if Nat.eqb n 92 then String backslash (String backslash "")
  else if Nat.eqb n 8 then String backslash "b"
  else if Nat.eqb n 12 then String backslash "f"
  else if Nat.eqb n 10 then String backslash "n"
  else if Nat.eqb n 13 then String backslash "r"
  else if Nat.eqb n 9 then String backslash "t"
  else if (Nat.ltb n 32 || Nat.ltb 126 n)%bool then
    String backslash
      ("u00" ++ String (hex_digit (n / 16)) (String (hex_digit (n mod 16)) ""))
  else String c "".

Fixpoint escape (s : string) : string :=
  match s with
  | EmptyString => EmptyString
  | String c s' => escape_char c ++ escape s'
  end.

Definition json_string (s : string) : string :=
  String dquote (escape s ++ String dquote "").

Section Dumps.
(** [float.__repr__], which [json.dumps] uses for a number. *)
Variable float_repr : float -> string.

Definition json_value (v : jval) : string :=
  match v with
  | JStr s => json_string s
  | JNum x => float_repr x
  end.

Definition json_member (kv : string * jval) : string :=
  json_string (fst kv) ++ ": " ++ json_value (snd kv).

(** [json.dumps(record)] for a flat record. *)
Definition json_dumps (record : dict jval) : string :=
  "{" ++ join ", " (map json_member record) ++ "}".
End Dumps.

(** One record of [df_serializable.to_dict(orient="records")]: the columns
    in their order, the timestamp already turned into its string. *)
Definition to_dict_record (r : row) : dict jval :=
  [("timestamp", JStr (astype_str (timestamp r)));
   ("location", JStr (location_label r));
   ("latitude", JNum (latitude r));
   ("longitude", JNum (longitude r));
   ("temperature_2m", JNum (temperature_2m r));
   ("is_day", JNum (is_day r));
   ("precipitation_probability", JNum (precipitation_probability r));
   ("precipitation", JNum (precipitation r))].

(** The record of a row as it is written: [record["mode"] = mode]. *)
Definition tagged_record (mode : string) (r : row) : dict jval :=
  dict_set (to_dict_record r) "mode" (JStr mode).

(** The records of a batch in the order the two nested loops visit them. *)
Definition batch_records (dataframes : list DataFrame) (mode : string)
  : list (dict jval) :=
  flat_map (map (tagged_record mode)) dataframes.

(** ** WarehouseLoader: the two statements *)

Definition put_statement (local_path : string) : string :=
  "PUT 'file://" ++ local_path ++ "' @%raw_weather AUTO_COMPRESS=TRUE".

Definition copy_statement : string :=
  "COPY INTO raw_weather(raw, loaded_at) "
  ++ "FROM (SELECT $1, METADATA$START_SCAN_TIME FROM @%raw_weather) "
  ++ "FILE_FORMAT = (TYPE = 'JSON')".

(** ** The outside world *)

(** Every call that leaves the process. *)
Inductive event : Type :=
| EGet (url : string) (p : params)
| EWeatherApi (url : string) (p : params)
| EConnect
| ECursor (c : connection)
| EExecute (cur : cursor) (sql : string)
| ECursorClose (cur : cursor)
| EConnClose (c : connection)
| ENow
| EOpen (path : string)
| EFileWrite (path : string) (data : string)
| EFileClose (path : string)
| ERemove (path : string).

(** The collaborators, over a state [W] of the outside world: each call
    moves the world and returns or raises.  [requests_get_json] is
    [requests.get(url, params, headers).json()]; [weather_api] is a client
    made by [_get_client] and its [weather_api] call; [snowflake_connect]
    reads the credentials and connects. *)
Record Env (W : Type) : Type := {
  requests_get_json : string -> params -> W -> W * result (list candidate);
  weather_api : string -> params -> W -> W * result (list response);
  snowflake_connect : W -> W * result connection;
  connection_cursor : connection -> W -> W * result cursor;
  cursor_execute : cursor -> string -> W -> W * result unit;
  cursor_close : cursor -> W -> W * result unit;
  connection_close : connection -> W -> W * result unit;
  utcnow : W -> W * result datetime;
  file_open : string -> W -> W * result unit;
  file_write : string -> string -> W -> W * result unit;
  file_close : string -> W -> W * result unit;
  os_remove : string -> W -> W * result unit;
  gettempdir : string;
  float_repr : float -> string
}.
Arguments requests_get_json {W}.
Arguments weather_api {W}.
Arguments snowflake_connect {W}.
Arguments connection_cursor {W}.
Arguments cursor_execute {W}.
Arguments cursor_close {W}.
Arguments connection_close {W}.
Arguments utcnow {W}.
Arguments file_open {W}.
Arguments file_write {W}.
Arguments file_close {W}.
Arguments os_remove {W}.
Arguments gettempdir {W}.
Arguments float_repr {W}.

(** ** Computations with effects *)

(** What a computation leaves behind: the world after it, the calls it
    made, in order, and its value or the exception it raised. *)
Record Out (W A : Type) : Type := {
  final : W;
  log : list event;
  outcome : result A
}.
Arguments final {W A}.
Arguments log {W A}.
Arguments outcome {W A}.

Definition M (W A : Type) : Type := W -> Out W A.

Definition ret {W A} (a : A) : M W A :=
  fun w => {| final := w; log := []; outcome := Ok a |}.

Definition raise {W A} (e : exn) : M W A :=
  fun w => {| final := w; log := []; outcome := Raise e |}.

Definition lift {W A} (r : result A) : M W A :=
  fun w => {| final := w; log := []; outcome := r |}.

Definition bind {W A B} (m : M W A) (f : A -> M W B) : M W B :=
  fun w =>
    let o := m w in
    match outcome o with
    | Ok a =>
        let o' := f a (final o) in
        {| final := final o'; log := log o ++ log o'; outcome := outcome o' |}
    | Raise e => {| final := final o; log := log o; outcome := Raise e |}
    end.

(** A call to a collaborator, written to the log. *)
Definition call {W A} (e : event) (oracle : W -> W * result A) : M W A :=
  fun w =>
    let '(w', r) := oracle w in
    {| final := w'; log := [e]; outcome := r |}.

(** [try: body finally: cleanup]: the cleanup runs whatever the body did; an
    exception of the cleanup replaces the outcome of the body. *)
Definition try_finally {W A} (body : M W A) (cleanup : M W unit) : M W A :=
  fun w =>
    let o := body w in
    let o' := cleanup (final o) in
    {| final := final o';
       log := log o ++ log o';
       outcome := match outcome o' with
                  | Ok _ => outcome o
                  | Raise e => Raise e
                  end |}.

Module EffectNotation.
Notation "x <- e ;; k" := (bind e (fun x => k))
  (at level 61, e at next level, right associativity).
Notation "e ;;; k" := (bind e (fun _ => k))
  (at level 61, right associativity).
End EffectNotation.
Import EffectNotation.

(** [for x in l: body(x)] *)
Fixpoint for_each {W A} (l : list A) (body : A -> M W unit) : M W unit :=
  match l with
  | [] => ret tt
  | x :: l' => body x ;;; for_each l' body
  end.

(** ** The pipeline *)

Section Pipeline.
Context {W : Type} (E : Env W).

(** [get_bbox] *)
Definition get_bbox (loc : location) : M W bbox :=
  let params := bbox_params loc in
  answer <- call (EGet nominatim_url params)
                 (requests_get_json E nominatim_url params) ;;
  lift (bbox_of_json answer).

(** [get_grid_points] *)
Definition get_grid_points (box : bbox) : M W (list float * list float) :=
  let params := grid_params box in
  responses <- call (EWeatherApi forecast_url params)
                    (weather_api E forecast_url params) ;;
  ret (map Latitude responses, map Longitude responses).

(** [get_weather] *)
Definition get_weather (latitudes longitudes : list float) (mode : string)
  : M W (list response) :=
  let params := weather_params latitudes longitudes mode in
  call (EWeatherApi forecast_url params) (weather_api E forecast_url params).

(** [get_snowflake_connection] *)
Definition get_snowflake_connection : M W connection :=
  call EConnect (snowflake_connect E).

(** The body of [with open(filepath, "w") as f]: one [f.write] per record,
    table after table. *)
Fixpoint write_lines (filepath : string) (lines : list string) : M W unit :=
  match lines with
  | [] => ret tt
  | line :: lines' =>
      call (EFileWrite filepath line) (file_write E filepath line) ;;;
      write_lines filepath lines'
  end.

Definition batch_lines (dataframes : list DataFrame) (mode : string)
  : list string :=
  map (fun record => json_dumps (float_repr E) record ++ String (ascii_of_nat 10) "")
      (batch_records dataframes mode).

(** [responses_to_json]: the file is closed when the [with] block is left,
    also by an exception. *)
Definition responses_to_json (dataframes : list DataFrame)
    (label mode : string) : M W string :=
  now <- call ENow (utcnow E) ;;
  let filename := batch_filename label mode now in
  let filepath := path_join (gettempdir E) filename in
  call (EOpen filepath) (file_open E filepath) ;;;
  try_finally (write_lines filepath (batch_lines dataframes mode))
              (call (EFileClose filepath) (file_close E filepath)) ;;;
  ret filepath.

(** [upload_to_snowflake]; [connection] is [None] only in a dry run, where
    the function is not called. *)
Definition upload_to_snowflake (conn : option connection)
    (local_path : string) : M W unit :=
  match conn with
  | None => raise AttributeError
  | Some c =>
      cur <- call (ECursor c) (connection_cursor E c) ;;
      try_finally
        (call (EExecute cur (put_statement local_path))
              (cursor_execute E cur (put_statement local_path)) ;;;
         call (EExecute cur copy_statement)
              (cursor_execute E cur copy_statement))
        (call (ECursorClose cur) (cursor_close E cur))
  end.

(** The loop body of [ingest] up to and including the serialization:
    from [label = ...] to [json_path = responses_to_json(...)]. *)
Definition write_batch (mode : string) (loc : location) : M W string :=
  let label := label_of loc in
  box <- get_bbox loc ;;
  grid <- get_grid_points box ;;
  responses <- get_weather (fst grid) (snd grid) mode ;;
  dataframes <- lift (parse_responses responses label) ;;
  lift (report_tables dataframes) ;;;
  responses_to_json dataframes label mode.

(** The loop body of [ingest]. *)
Definition ingest_location (mode : string) (dry_run : bool)
    (conn : option connection) (loc : location) : M W unit :=
  json_path <- write_batch mode loc ;;
  (if negb dry_run then upload_to_snowflake conn json_path else ret tt) ;;;
  call (ERemove json_path) (os_remove E json_path).

(** [if conn: conn.close()] *)
Definition close_connection (conn : option connection) : M W unit :=
  match conn with
  | Some c => call (EConnClose c) (connection_close E c)
  | None => ret tt
  end.

(** [ingest] *)
Definition ingest (mode : string) (locations : option (list location))
    (dry_run : bool) : M W unit :=
  let locations :=
    match locations with
    | None => LOCATIONS
    | Some l => l
    end in
  conn <- (if negb dry_run
           then c <- get_snowflake_connection ;; ret (Some c)
           else ret None) ;;
  try_finally (for_each locations (ingest_location mode dry_run conn))
              (close_connection conn).
End Pipeline.

(** * The vocabulary of the properties *)

(** ** The window of a mode *)



(** ** Progressions and tables *)

(** The first [n] instants of the progression [s], [s + d], [s + 2d], ... *)
Definition steps (s d : Z) (n : nat) : list Z :=
  map (fun k => s + Z.of_nat k * d) (seq 0 n).

(** The four arrays of a response have the length of its index. *)
Definition aligned (r : response) : bool :=
  same_length (timestamps r)
    (Variables (Hourly r) 0%nat) (Variables (Hourly r) 1%nat)
    (Variables (Hourly r) 2%nat) (Variables (Hourly r) 3%nat).

(** ** Calls of a computation *)

(** Every call a computation makes satisfies [P]. *)
Definition emits_only {W} (P : event -> Prop) {A} (m : M W A) : Prop :=
  forall w, Forall P (log (m w)).

(** A call to the warehouse: the connection, a cursor, a statement. *)
Definition is_warehouse (e : event) : bool :=
  match e with
  | EConnect | ECursor _ | EExecute _ _ | ECursorClose _ | EConnClose _ => true
  | _ => false
  end.

(** A call that opens or closes the connection of the run. *)
Definition is_connection (e : event) : bool :=
  match e with
  | EConnect | EConnClose _ => true
  | _ => false
  end.

Definition is_file (e : event) : bool :=
  match e with
  | EOpen _ | EFileWrite _ _ | EFileClose _ | ERemove _ => true
  | _ => false
  end.

Definition is_remove (e : event) : bool :=
  match e with
  | ERemove _ => true
  | _ => false
  end.

(** The file calls of one pass over a location: the file is opened,
    written line by line, closed and removed. *)
Inductive file_cycle : list event -> Prop :=
| file_cycle_intro (path : string) (lines : list string) :
    file_cycle (EOpen path :: map (EFileWrite path) lines
                ++ [EFileClose path; ERemove path])%list.

Inductive file_cycles : nat -> list event -> Prop :=
| file_cycles_nil : file_cycles 0 []
| file_cycles_cons (n : nat) (c l : list event) :
    file_cycle c -> file_cycles n l -> file_cycles (S n) (c ++ l)%list.

(** ** The passes of a run *)

(** The locations a run goes over: the given ones, or the default list. *)
Definition configured (locations : option (list location)) : list location :=
  match locations with
  | None => LOCATIONS
  | Some l => l
  end.

(** The load phase of a pass: the stage and the copy, or nothing in a dry
    run. *)
Definition load_phase {W} (E : Env W) (dry_run : bool)
    (conn : option connection)
    (path : string) : M W unit :=
  if negb dry_run then upload_to_snowflake E conn path else ret tt.

(** ** Answers that stop a pass *)

(** The two answers of the geocoder that leave a location unresolved, with
    the exception each one ends in: no candidate, or a first candidate
    without the key ["boundingbox"]. *)
Definition resolution_failure (answer : list candidate) : option exn :=
  match answer with
  | [] => Some IndexError
  | c :: _ =>
      match boundingbox c with
      | None => Some KeyError
      | Some _ => None
      end
  end.

(** ** File names *)

(** What the two replacements do to one character of the label: a space
    becomes an underscore, a comma disappears, any other character stays. *)
Definition sanitize_char (c : ascii) : string :=
  if Ascii.eqb c " " then "_"
  else if Ascii.eqb c "," then ""
  else String c "".

Fixpoint sanitize (s : string) : string :=
  match s with
  | EmptyString => EmptyString
  | String c s' => sanitize_char c ++ sanitize s'
  end.

(** The label with its spaces and commas taken out, as the specification
    words it. *)
Fixpoint strip_spaces_commas (s : string) : string :=
  match s with
  | EmptyString => EmptyString
  | String c s' =>
      if (Ascii.eqb c " " || Ascii.eqb c ",")%bool then strip_spaces_commas s'
      else String c (strip_spaces_commas s')
  end.

(** The instant of a datetime up to the second. *)
Definition to_second (t : datetime) : Z * Z * Z * Z * Z * Z :=
  (year t, month t, day t, hour t, minute t, second t).

(** The ranges of the fields of a datetime the clock can return; [%Y]
    prints four digits for these years. *)
Definition valid_datetime (t : datetime) : Prop :=
  1000 <= year t <= 9999 /\ 1 <= month t <= 12 /\ 1 <= day t <= 31
  /\ 0 <= hour t <= 23 /\ 0 <= minute t <= 59 /\ 0 <= second t <= 59
  /\ 0 <= microsecond t <= 999999.

Fixpoint has_char (c : ascii) (s : string) : bool :=
  match s with
  | EmptyString => false
  | String a s' => (Ascii.eqb a c || has_char c s')%bool
  end.

(** ** The mode in a call *)


(** ** Reading the file back *)

(** A reader of the line-delimited JSON the serializer writes:
    [json.loads] on every line, for flat objects of strings and numbers
    with the separators [json.dumps] writes.  [float_parse] is [float] on the
    text of a number. *)

Definition LF : ascii := ascii_of_nat 10.

Definition unhex (c : ascii) : option nat :=
  let n := nat_of_ascii c in
  if (Nat.leb 48 n && Nat.leb n 57)%bool then Some (n - 48)%nat
  else if (Nat.leb 97 n && Nat.leb n 102)%bool then Some (n - 87)%nat
  else if (Nat.leb 65 n && Nat.leb n 70)%bool then Some (n - 55)%nat
  else None.

(** The character a two-character escape stands for. *)
Definition unescape (c : ascii) : option ascii :=
  let n := nat_of_ascii c in
  if Nat.eqb n 34 then Some dquote
  else if Nat.eqb n 92 then Some backslash
  else if Nat.eqb n 47 then Some "/"%char
  else if Nat.eqb n 98 then Some (ascii_of_nat 8)
  else if Nat.eqb n 102 then Some (ascii_of_nat 12)
  else if Nat.eqb n 110 then Some (ascii_of_nat 10)
  else if Nat.eqb n 114 then Some (ascii_of_nat 13)
  else if Nat.eqb n 116 then Some (ascii_of_nat 9)
  else None.

Definition cons_char (c : ascii) (r : option (string * string))
  : option (string * string) :=
  match r with
  | Some (t, rest) => Some (String c t, rest)
  | None => None
  end.

(** The text after an opening quote: the string up to the closing quote,
    and what follows it. *)
Fixpoint read_string (s : string) : option (string * string) :=
  match s with
  | EmptyString => None
  | String c s' =>
      if Nat.eqb (nat_of_ascii c) 34 then Some (EmptyString, s')
      else if Nat.eqb (nat_of_ascii c) 92 then
        match s' with
        | EmptyString => None
        | String e s'' =>
            if Nat.eqb (nat_of_ascii e) 117 then
              match s'' with
              | String h1 (String h2 (String h3 (String h4 rest))) =>
                  match unhex h1, unhex h2, unhex h3, unhex h4 with
                  | Some a, Some b, Some c', Some d =>
                      let n := (((a * 16 + b) * 16 + c') * 16 + d)%nat in
                      if Nat.ltb n 256
                      then cons_char (ascii_of_nat n) (read_string rest)
                      else None
                  | _, _, _, _ => None
                  end
              | _ => None
              end
            else
              match unescape e with
              | Some x => cons_char x (read_string s'')
              | None => None
              end
        end
      else if Nat.ltb (nat_of_ascii c) 32 then None
      else cons_char c (read_string s')
  end.

(** The characters that end the text of a number. *)
Definition is_delimiter (c : ascii) : bool :=
  let n := nat_of_ascii c in
  (Nat.eqb n 44 || Nat.eqb n 125 || Nat.eqb n 32 || Nat.eqb n 10)%bool.

Fixpoint read_token (s : string) : string * string :=
  match s with
  | EmptyString => (EmptyString, EmptyString)
  | String c s' =>
      if is_delimiter c then (EmptyString, s)
      else let '(t, rest) := read_token s' in (String c t, rest)
  end.

Section Loads.
Variable float_parse : string -> option float.

Definition read_value (s : string) : option (jval * string) :=
  match s with
  | EmptyString => None
  | String c s' =>
      if Nat.eqb (nat_of_ascii c) 34 then
        match read_string s' with
        | Some (t, rest) => Some (JStr t, rest)
        | None => None
        end
      else
        let '(t, rest) := read_token s in
        match float_parse t with
        | Some x => Some (JNum x, rest)
        | None => None
        end
  end.

(** One ["key": value]. *)
Definition read_member (s : string) : option ((string * jval) * string) :=
  match s with
  | EmptyString => None
  | String q s1 =>
      if Nat.eqb (nat_of_ascii q) 34 then
        match read_string s1 with
        | Some (k, String c1 (String c2 s2)) =>
            if (Nat.eqb (nat_of_ascii c1) 58 && Nat.eqb (nat_of_ascii c2) 32)%bool
            then
              match read_value s2 with
              | Some (v, rest) => Some ((k, v), rest)
              | None => None
              end
            else None
        | _ => None
        end
      else None
  end.

(** The members of an object up to its closing brace, which ends the
    text. *)
Fixpoint read_members (fuel : nat) (s : string) : option (dict jval) :=
  match fuel with
  | O => None
  | S fuel' =>
      match read_member s with
      | Some (kv, String c rest) =>
          if Nat.eqb (nat_of_ascii c) 125 then
            match rest with
            | EmptyString => Some [kv]
            | String _ _ => None
            end
          else if Nat.eqb (nat_of_ascii c) 44 then
            match rest with
            | String c2 rest' =>
                if Nat.eqb (nat_of_ascii c2) 32 then
                  match read_members fuel' rest' with
                  | Some l => Some (kv :: l)
                  | None => None
                  end
                else None
            | EmptyString => None
            end
          else None
      | _ => None
      end
  end.

(** [json.loads(line)] *)
Definition json_loads (s : string) : option (dict jval) :=
  match s with
  | String c r =>
      if Nat.eqb (nat_of_ascii c) 123 then
        match r with
        | String c2 EmptyString =>
            if Nat.eqb (nat_of_ascii c2) 125 then Some []
            else read_members (String.length r) r
        | _ => read_members (String.length r) r
        end
      else None
  | EmptyString => None
  end.

Fixpoint loads_all (lines : list string) : option (list (dict jval)) :=
  match lines with
  | [] => Some []
  | line :: lines' =>
      match json_loads line, loads_all lines' with
      | Some record, Some records => Some (record :: records)
      | _, _ => None
      end
  end.
End Loads.

(** A line of a text: up to the first line feed, and what follows it. *)
Fixpoint take_line (s : string) : option (string * string) :=
  match s with
  | EmptyString => None
  | String c s' =>
      if Nat.eqb (nat_of_ascii c) 10 then Some (EmptyString, s')
      else cons_char c (take_line s')
  end.

(** The lines of a text in which every line ends with a line feed. *)
Fixpoint lines_of (fuel : nat) (s : string) : option (list string) :=
  match s with
  | EmptyString => Some []
  | String _ _ =>
      match fuel with
      | O => None
      | S fuel' =>
          match take_line s with
          | Some (line, rest) =>
              match lines_of fuel' rest with
              | Some l => Some (line :: l)
              | None => None
              end
          | None => None
          end
      end
  end.

(** The records of a line-delimited JSON text. *)
Definition read_ndjson (float_parse : string -> option float) (text : string)
  : option (list (dict jval)) :=
  match lines_of (String.length text) text with
  | Some lines => loads_all float_parse lines
  | None => None
  end.

(** What has been written to a file: the data of the writes to its path,
    one after the other. *)
Fixpoint written (path : string) (calls : list event) : string :=
  match calls with
  | [] => EmptyString
  | EFileWrite p data :: calls' =>
      if String.eqb p path then data ++ written path calls'
      else written path calls'
  | _ :: calls' => written path calls'
  end.

(** ** Numbers that survive the round trip *)

(** The text of a number: no character that ends a number, no quote. *)
Fixpoint number_text (t : string) : bool :=
  match t with
  | EmptyString => true
  | String c t' =>
      (negb (is_delimiter c) && negb (Nat.eqb (nat_of_ascii c) 34)
       && number_text t')%bool
  end.

(** What the round trip asks of the printing and the parsing of a number:
    the text printed for [x] is the text of a number, and parses to [x]. *)
Definition codec_ok (repr : float -> string) (parse : string -> option float)
    (x : float) : Prop :=
  parse (repr x) = Some x /\ number_text (repr x) = true.

Definition value_ok (repr : float -> string) (parse : string -> option float)
    (v : jval) : Prop :=
  match v with
  | JStr _ => True
  | JNum x => codec_ok repr parse x
  end.

Definition record_ok (repr : float -> string) (parse : string -> option float)
    (record : dict jval) : Prop :=
  Forall (fun kv => value_ok repr parse (snd kv)) record.

(** The text of lines that each end with a line feed. *)
Definition text_of (lines : list string) : string :=
  fold_right String.append EmptyString lines.

Definition end_line (line : string) : string := line ++ String LF "".

(** ** The records of a batch *)

(** The numbers of a row. *)
Definition row_floats (r : row) : list float :=
  [latitude r; longitude r; temperature_2m r; is_day r;
   precipitation_probability r; precipitation r].

(** Every number of the batch is printed to a text that parses back to
    it. *)
Definition batch_codec_ok (repr : float -> string)
    (parse : string -> option float) (dataframes : list DataFrame) : Prop :=
  Forall (Forall (fun r => Forall (codec_ok repr parse) (row_floats r)))
    dataframes.

(** The day number, counted from 1970-01-01, of a civil date. *)
Definition days_from_civil (y m d : Z) : Z :=
  let y := if m <=? 2 then y - 1 else y in
  let era := y / 400 in
  let yoe := y - era * 400 in
  let mp := if 2 <? m then m - 3 else m + 9 in
  let doy := (153 * mp + 2) / 5 + d - 1 in
  let doe := yoe * 365 + yoe / 4 - yoe / 100 + doy in
  era * 146097 + doe - 719468.

(** The instants a pandas timestamp can hold, to the second: from
    1677-09-21 to 2262-04-11. *)
Definition representable (t : Z) : Prop :=
  -9223372036 <= t <= 9223372036.

(** The record of a row in memory: its eight fields, by name (the instant
    as its text, the other fields as they are), and the tag of the mode. *)
Definition record_of_row (mode : string) (r : row) : dict jval :=
  [("timestamp", JStr (astype_str (timestamp r)));
   ("location", JStr (location_label r));
   ("latitude", JNum (latitude r));
   ("longitude", JNum (longitude r));
   ("temperature_2m", JNum (temperature_2m r));
   ("is_day", JNum (is_day r));
   ("precipitation_probability", JNum (precipitation_probability r));
   ("precipitation", JNum (precipitation r));
   ("mode", JStr mode)].

(** The lines of a batch: for every row, table after table, the JSON text
    of its record, and a line feed. *)
Definition row_lines (repr : float -> string) (mode : string)
    (dataframes : list DataFrame) : list string :=
  map (fun r => end_line (json_dumps repr (record_of_row mode r)))
      (List.concat dataframes).

(** ** A pass whose collaborators answer *)

(** The outside world answers a pass over [loc] that starts in the world
    [w]: the geocoder with a candidate list that resolves to [box], the
    provider with the grid points [cells] for that box and then with
    [responses] for the fetch at those points, the clock with [now]; the
    file of the batch, at [path], can be opened, written and closed. *)
Definition pass_answered {W} (E : Env W) (mode : string) (loc : location)
    (w : W) (box : bbox) (cells responses : list response) (now : datetime)
    (path : string) : Prop :=
  let geo := requests_get_json E nominatim_url (bbox_params loc) w in
  let grid := weather_api E forecast_url (grid_params box) (fst geo) in
  let fetch :=
    weather_api E forecast_url
      (weather_params (map Latitude cells) (map Longitude cells) mode)
      (fst grid) in
  let clock := utcnow E (fst fetch) in
  (exists answer, snd geo = Ok answer /\ bbox_of_json answer = Ok box)
  /\ snd grid = Ok cells
  /\ snd fetch = Ok responses
  /\ snd clock = Ok now
  /\ path = path_join (gettempdir E) (batch_filename (label_of loc) mode now)
  /\ snd (file_open E path (fst clock)) = Ok tt
  /\ (forall line w', snd (file_write E path line w') = Ok tt)
  /\ (forall w', snd (file_close E path w') = Ok tt).

(** ** A scripted outside world *)

(** What the collaborators answer in a scripted world: the geocoder and the
    provider always answer the same, the stage statement answers as
    scripted, everything else returns, and the clock stands still. *)
Record script : Type := {
  geocoder_says : result (list candidate);
  provider_says : result (list response);
  stage_says : result unit;
  clock_says : datetime
}.

(** A printing of the numbers of the sample data, and its parsing. *)
Definition table_repr (x : float) : string :=
  if PrimFloat.eqb x 72.5 then "72.5"
  else if PrimFloat.eqb x 33.75 then "33.75"
  else if PrimFloat.eqb x (-84.375) then "-84.375"
  else if PrimFloat.eqb x 1 then "1.0"
  else "0.0".

Definition table_parse (s : string) : option float :=
  if String.eqb s "72.5" then Some 72.5%float
  else if String.eqb s "33.75" then Some 33.75%float
  else if String.eqb s "-84.375" then Some (-84.375)%float
  else if String.eqb s "1.0" then Some 1%float
  else if String.eqb s "0.0" then Some 0%float
  else None.

Definition scripted (s : script) : Env unit := {|
  requests_get_json := fun _ _ w => (w, geocoder_says s);
  weather_api := fun _ _ w => (w, provider_says s);
  snowflake_connect := fun w => (w, Ok (Connection 1));
  connection_cursor := fun _ w => (w, Ok (Cursor 1));
  cursor_execute := fun _ sql w =>
    (w, if String.eqb sql copy_statement then Ok tt else stage_says s);
  cursor_close := fun _ w => (w, Ok tt);
  connection_close := fun _ w => (w, Ok tt);
  utcnow := fun w => (w, Ok (clock_says s));
  file_open := fun _ w => (w, Ok tt);
  file_write := fun _ _ w => (w, Ok tt);
  file_close := fun _ w => (w, Ok tt);
  os_remove := fun _ w => (w, Ok tt);
  gettempdir := "/tmp";
  float_repr := table_repr
|}.

Definition atlanta : location := CityState "Atlanta" "Georgia".
Definition boone : location := FreeForm "Daniel Boone National Forest, USA".

Definition atlanta_candidate : candidate :=
  {| boundingbox := Some ["33.6478079"; "33.8868859"; "-84.551068"; "-84.28956"] |}.

(** 2024-05-01 12:00:00 UTC, and one second later. *)
Definition noon : datetime :=
  {| year := 2024; month := 5; day := 1;
     hour := 12; minute := 0; second := 0; microsecond := 250000 |}.

Definition noon_and_a_second : datetime :=
  {| year := 2024; month := 5; day := 1;
     hour := 12; minute := 0; second := 1; microsecond := 0 |}.

(** The values of a response of [n] hours. *)
Definition sample_values (n : nat) (i : nat) : list float :=
  match i with
  | O => repeat 72.5%float n
  | S O => repeat 1%float n
  | _ => repeat 0%float n
  end.

(** A grid point with the two hours from 2024-05-01 00:00:00 UTC. *)
Definition two_hours : response :=
  {| Latitude := 33.75; Longitude := (-84.375);
     Hourly := {| Time := 1714521600; TimeEnd := 1714528800;
                  Interval := 3600; Variables := sample_values 2 |} |}.

(** The same window with a temperature array one value short. *)
Definition short_hour : response :=
  {| Latitude := 33.75; Longitude := (-84.375);
     Hourly := {| Time := 1714521600; TimeEnd := 1714528800;
                  Interval := 3600;
                  Variables := fun i =>
                    match i with
                    | O => [72.5%float]
                    | _ => sample_values 2 i
                    end |} |}.

(** The next three hours, from 2024-05-01 02:00:00 UTC. *)
Definition three_hours : response :=
  {| Latitude := 33.75; Longitude := (-84.375);
     Hourly := {| Time := 1714528800; TimeEnd := 1714539600;
                  Interval := 3600; Variables := sample_values 3 |} |}.

(** A world in which everything answers. *)
Definition fair : script :=
  {| geocoder_says := Ok [atlanta_candidate];
     provider_says := Ok [two_hours];
     stage_says := Ok tt;
     clock_says := noon |}.

(** The geocoder knows no candidate; the first candidate has no box. *)
Definition nowhere : script :=
  {| geocoder_says := Ok [];
     provider_says := Ok [two_hours];
     stage_says := Ok tt;
     clock_says := noon |}.

Definition boxless : script :=
  {| geocoder_says := Ok [{| boundingbox := None |}];
     provider_says := Ok [two_hours];
     stage_says := Ok tt;
     clock_says := noon |}.

(** The provider answers with the short response. *)
Definition misaligned : script :=
  {| geocoder_says := Ok [atlanta_candidate];
     provider_says := Ok [short_hour];
     stage_says := Ok tt;
     clock_says := noon |}.

(** The stage statement fails. *)
Definition stage_down : script :=
  {| geocoder_says := Ok [atlanta_candidate];
     provider_says := Ok [two_hours];
     stage_says := Raise (Exn "ProgrammingError");
     clock_says := noon |}.

(** * The command line *)

(** [c.isspace()] for a character of a [str], on the code points below
    256: tab to carriage return, the four separators, the space, the next
    line and the no-break space. *)
Definition is_space (c : ascii) : bool :=
  let n := nat_of_ascii c in
  ((Nat.leb 9 n && Nat.leb n 13) || (Nat.leb 28 n && Nat.leb n 31)
   || Nat.eqb n 32 || Nat.eqb n 133 || Nat.eqb n 160)%bool.

Fixpoint lstrip (s : string) : string :=
  match s with
  | EmptyString => EmptyString
  | String c s' => if is_space c then lstrip s' else s
  end.

Fixpoint rstrip (s : string) : string :=
  match s with
  | EmptyString => EmptyString
  | String c s' =>
      match rstrip s' with
      | EmptyString => if is_space c then EmptyString else String c EmptyString
      | String c' t => String c (String c' t)
      end
  end.

(** [s.strip()] *)
Definition strip (s : string) : string := lstrip (rstrip s).

(** [s.split(",", 1)]: the text before the first comma and the text after
    it, or the text alone when it has no comma. *)
Fixpoint split_once (s : string) : list string :=
  match s with
  | EmptyString => [EmptyString]
  | String c s' =>
      if Ascii.eqb c "," then [EmptyString; s']
      else
        match split_once s' with
        | part :: parts => String c part :: parts
        | [] => []
        end
  end.

(** [parse_location_arg] *)
Definition parse_location_arg (value : string) : location :=
  if has_char "," value then
    match map strip (split_once value) with
    | [city; state] => CityState city state
    | _ => FreeForm value
    end
  else FreeForm value.

(** ** More vocabulary *)

(** The last character of a text. *)
Fixpoint last_char (s : string) : option ascii :=
  match s with
  | EmptyString => None
  | String c s' =>
      match last_char s' with
      | None => Some c
      | Some d => Some d
      end
  end.

(** The text has no white space at either end. *)
Definition stripped (s : string) : bool :=
  match s with
  | EmptyString => true
  | String c _ => negb (is_space c)
  end
  && match last_char s with
     | None => true
     | Some c => negb (is_space c)
     end.

(** The names of the hourly variables a fetch asks for, in their order. *)
Definition hourly_names (p : params) : list string :=
  match dict_get p "hourly" with
  | Some (PStrs names) => names
  | _ => []
  end.

(** The calls of one pass of a run that loads: the file opened, written,
    closed, then a cursor, the stage of that file, the copy, the cursor
    closed, and the file removed. *)
Inductive load_cycle : list event -> Prop :=
| load_cycle_intro (path : string) (lines : list string) (c : connection)
    (cur : cursor) :
    load_cycle (EOpen path :: map (EFileWrite path) lines
                ++ [EFileClose path; ECursor c;
                    EExecute cur (put_statement path);
                    EExecute cur copy_statement;
                    ECursorClose cur; ERemove path])%list.

Inductive load_cycles : nat -> list event -> Prop :=
| load_cycles_nil : load_cycles 0 []
| load_cycles_cons (n : nat) (c l : list event) :
    load_cycle c -> load_cycles n l -> load_cycles (S n) (c ++ l)%list.

(** A call on a file or on a cursor. *)
Definition is_file_or_load (e : event) : bool :=
  match e with
  | EOpen _ | EFileWrite _ _ | EFileClose _ | ERemove _
  | ECursor _ | EExecute _ _ | ECursorClose _ => true
  | _ => false
  end.

Fixpoint is_prefix {A} (l1 l2 : list A) : Prop :=
  match l1, l2 with
  | [], _ => True
  | x :: l1', y :: l2' => x = y /\ is_prefix l1' l2'
  | _ :: _, [] => False
  end.

(** A window that ends before it starts, with no value. *)
Definition empty_window : response :=
  {| Latitude := 33.75; Longitude := (-84.375);
     Hourly := {| Time := 1714528800; TimeEnd := 1714521600;
                  Interval := 3600; Variables := sample_values 0 |} |}.

Definition hollow : script :=
  {| geocoder_says := Ok [atlanta_candidate];
     provider_says := Ok [empty_window];
     stage_says := Ok tt;
     clock_says := noon |}.

Definition barren : script :=
  {| geocoder_says := Ok [atlanta_candidate];
     provider_says := Ok [];
     stage_says := Ok tt;
     clock_says := noon |}.

(** A day of hours from 2024-05-01 00:00:00 UTC. *)
Definition one_day : response :=
  {| Latitude := 33.75; Longitude := (-84.375);
     Hourly := {| Time := 1714521600; TimeEnd := 1714608000;
                  Interval := 3600; Variables := sample_values 24 |} |}.

(** The first candidate has a box of three entries. *)
Definition cramped : script :=
  {| geocoder_says := Ok [{| boundingbox := Some ["33.6"; "33.9"; "-84.5"] |}];
     provider_says := Ok [two_hours];
     stage_says := Ok tt;
     clock_says := noon |}.

(** The box of the candidate for Atlanta, and the file of its batch at
    noon. *)
Definition atlanta_box : bbox :=
  {| south_lat := "33.6478079"; north_lat := "33.8868859";
     west_lon := "-84.551068"; east_lon := "-84.28956" |}.

Definition atlanta_file : string :=
  "/tmp/Atlanta_Georgia_history_20240501_120000.json".

(** The table of the response of two hours, for a label. *)
Definition two_hours_table (label : string) : DataFrame :=
  [ {| timestamp := 1714521600; location_label := label;
       latitude := 33.75; longitude := (-84.375);
       temperature_2m := 72.5; is_day := 1;
       precipitation_probability := 0; precipitation := 0 |};
    {| timestamp := 1714525200; location_label := label;
       latitude := 33.75; longitude := (-84.375);
       temperature_2m := 72.5; is_day := 1;
       precipitation_probability := 0; precipitation := 0 |} ].

(** The files of the batches for the forest in a history run and for
    Atlanta in a run with the mode ["backfill"], at noon. *)
Definition boone_file : string :=
  "/tmp/Daniel_Boone_National_Forest_USA_history_20240501_120000.json".



(** * Properties *)

(** ** The fetch window *)


(** C2: the request [get_weather] makes carries the window of the mode:
    24 past hours and no forward hour for ["history"], no past hour and one
    forward hour for ["forecast"], whatever the grid points are. *)
Theorem get_weather_window {W} (E : Env W) (latitudes longitudes : list float) (w : W) :
  (exists p,
     log (get_weather E latitudes longitudes "history" w)
       = [EWeatherApi forecast_url p]
     /\ dict_get p "latitude" = Some (PFloats latitudes)
     /\ dict_get p "longitude" = Some (PFloats longitudes)
     /\ dict_get p "past_hours" = Some (PInt 24)
     /\ dict_get p "forecast_hours" = Some (PInt 0))
  /\
  (exists p,
     log (get_weather E latitudes longitudes "forecast" w)
       = [EWeatherApi forecast_url p]
     /\ dict_get p "latitude" = Some (PFloats latitudes)
     /\ dict_get p "longitude" = Some (PFloats longitudes)
     /\ dict_get p "past_hours" = Some (PInt 0)
     /\ dict_get p "forecast_hours" = Some (PInt 1)).
Proof.
  split.
  - exists (weather_params latitudes longitudes "history").
    unfold get_weather, call.
    destruct (weather_api E _ _ w); repeat split.
  - exists (weather_params latitudes longitudes "forecast").
    unfold get_weather, call.
    destruct (weather_api E _ _ w); repeat split.
Qed.

(** ** The timestamp sequence *)

Lemma steps_S (s d : Z) (n : nat) :
  steps s d (S n) = (steps s d n ++ [s + Z.of_nat n * d])%list.
Proof.
  unfold steps. rewrite seq_S, map_app. reflexivity.
Qed.

Lemma steps_length (s d : Z) (n : nat) : List.length (steps s d n) = n.
Proof.
  unfold steps. rewrite length_map, length_seq. reflexivity.
Qed.

Lemma steps_nth_error (s d : Z) (n i : nat) :
  (i < n)%nat -> nth_error (steps s d n) i = Some (s + Z.of_nat i * d).
Proof.
  intros Hi. unfold steps.
  rewrite nth_error_map, nth_error_seq.
  destruct (Nat.ltb_spec i n); [reflexivity | lia].
Qed.

Lemma regular_count (s e d : Z) :
  0 < d ->
  (s + (e - s) / d * d + d / 2 + 1 - s + d - 1) / d = (e - s) / d + 1.
Proof.
  intros Hd.
  replace (s + (e - s) / d * d + d / 2 + 1 - s + d - 1)
    with ((e - s) / d * d + (d / 2 + d)) by ring.
  rewrite Z.div_add_l by lia.
  f_equal.
  symmetry. apply Z.div_unique with (r := d / 2).
  - left. split.
    + apply Z.div_pos; lia.
    + apply Z.div_lt_upper_bound; lia.
  - ring.
Qed.

Lemma generate_regular_range_steps (s e d : Z) :
  0 < d ->
  generate_regular_range s e d = steps s d (Z.to_nat ((e - s) / d + 1)).
Proof.
  intros Hd. unfold generate_regular_range, arange.
  rewrite regular_count by assumption. reflexivity.
Qed.

(** The quotient that counts the steps from [s] up to [e]. *)
Lemma quotient_bounds (s e d : Z) :
  0 < d ->
  s + (e - s) / d * d <= e < s + ((e - s) / d + 1) * d.
Proof.
  intros Hd.
  pose proof (Z.div_mod (e - s) d ltac:(lia)) as Hdm.
  pose proof (Z.mod_pos_bound (e - s) d Hd) as Hm.
  nia.
Qed.

(** The index of [date_range] is the progression from the start, by the
    step, of exactly the instants before the end. *)
Lemma date_range_half_open (s e : Z) (d : positive) :
  exists n,
    date_range s e d = steps s (Z.pos d) n
    /\ forall k, (k < n)%nat <-> s + Z.of_nat k * Z.pos d < e.
Proof.
  unfold date_range.
  rewrite generate_regular_range_steps by lia.
  pose proof (quotient_bounds s e (Z.pos d) ltac:(lia)) as [Hlo Hhi].
  set (q := (e - s) / Z.pos d) in *.
  destruct (Z.ltb_spec q 0) as [Hneg | Hpos].
  - (* the end is before the start: no instant *)
    replace (Z.to_nat (q + 1)) with 0%nat by lia.
    exists 0%nat. split; [reflexivity |].
    intros k. split; [lia | nia].
  - replace (Z.to_nat (q + 1)) with (S (Z.to_nat q)) by lia.
    rewrite steps_S.
    destruct (steps s (Z.pos d) (Z.to_nat q) ++ [s + Z.of_nat (Z.to_nat q) * Z.pos d])%list
      as [| x l] eqn:Hv.
    { destruct (steps s (Z.pos d) (Z.to_nat q)); discriminate. }
    rewrite <- Hv. rewrite last_last, removelast_last.
    rewrite Z2Nat.id by lia.
    destruct (Z.eqb_spec (s + q * Z.pos d) e) as [Hhit | Hmiss].
    + exists (Z.to_nat q). split; [reflexivity |].
      intros k. split; intros Hk; nia.
    + exists (S (Z.to_nat q)). split.
      * rewrite steps_S, Z2Nat.id by lia. reflexivity.
      * intros k. split; intros Hk; nia.
Qed.

(** ** The table of one grid point *)

Lemma zip_rows_length (label : string) (lat lon : float) (ts : list Z)
    (a0 a1 a2 a3 : list float) :
  same_length ts a0 a1 a2 a3 = true ->
  List.length (zip_rows label lat lon ts a0 a1 a2 a3) = List.length ts.
Proof.
  unfold same_length.
  revert a0 a1 a2 a3.
  induction ts as [| t ts IH]; intros a0 a1 a2 a3 H.
  - reflexivity.
  - repeat rewrite andb_true_iff in H.
    destruct H as [[[H0 H1] H2] H3].
    apply Nat.eqb_eq in H0, H1, H2, H3.
    destruct a0, a1, a2, a3; try discriminate.
    simpl in *. f_equal. apply IH.
    repeat rewrite andb_true_iff.
    repeat split; apply Nat.eqb_eq; lia.
Qed.



Lemma same_length_inv (ts : list Z) (a0 a1 a2 a3 : list float) :
  same_length ts a0 a1 a2 a3 = true ->
  List.length a0 = List.length ts /\ List.length a1 = List.length ts
  /\ List.length a2 = List.length ts /\ List.length a3 = List.length ts.
Proof.
  unfold same_length. repeat rewrite andb_true_iff.
  intros [[[H0 H1] H2] H3].
  apply Nat.eqb_eq in H0, H1, H2, H3. auto.
Qed.

Lemma parse_response_aligned (r : response) (label : string) :
  aligned r = true ->
  parse_response r label
  = Ok (zip_rows label (Latitude r) (Longitude r) (timestamps r)
          (Variables (Hourly r) 0%nat) (Variables (Hourly r) 1%nat)
          (Variables (Hourly r) 2%nat) (Variables (Hourly r) 3%nat)).
Proof.
  unfold aligned, parse_response, mk_DataFrame. intros ->. reflexivity.
Qed.

Lemma parse_response_misaligned (r : response) (label : string) :
  aligned r = false -> parse_response r label = Raise ValueError.
Proof.
  unfold aligned, parse_response, mk_DataFrame. intros ->. reflexivity.
Qed.

(** The only exception of [parse_responses] is the [ValueError] of a table
    whose arrays differ in length. *)
Lemma parse_responses_total (responses : list response) (label : string) :
  if forallb aligned responses
  then exists dataframes,
         parse_responses responses label = Ok dataframes
         /\ List.length dataframes = List.length responses
  else parse_responses responses label = Raise ValueError.
Proof.
  induction responses as [| r rs IH]; simpl.
  - exists []. split; reflexivity.
  - destruct (aligned r) eqn:Hr; simpl.
    + rewrite (parse_response_aligned r label Hr). simpl.
      destruct (forallb aligned rs).
      * destruct IH as [dfs [-> Hlen]]. simpl.
        eexists. split; [reflexivity |]. simpl. now rewrite Hlen.
      * rewrite IH. reflexivity.
    + rewrite (parse_response_misaligned r label Hr). reflexivity.
Qed.

Lemma parse_responses_misaligned (responses : list response) (label : string) :
  Exists (fun r => aligned r = false) responses ->
  parse_responses responses label = Raise ValueError.
Proof.
  intros Hex.
  pose proof (parse_responses_total responses label) as Htot.
  destruct (forallb aligned responses) eqn:Hall; [| exact Htot].
  rewrite forallb_forall in Hall.
  apply Exists_exists in Hex. destruct Hex as [r [Hin Hr]].
  rewrite (Hall r Hin) in Hr. discriminate.
Qed.


(** ** Running a computation *)

Section Running.
Context {W : Type}.

Lemma call_run {A} (e : event) (oracle : W -> W * result A) (w w' : W)
    (r : result A) :
  oracle w = (w', r) ->
  call e oracle w = {| final := w'; log := [e]; outcome := r |}.
Proof.
  intros H. unfold call. rewrite H. reflexivity.
Qed.

Lemma call_log {A} (e : event) (oracle : W -> W * result A) (w : W) :
  log (call e oracle w) = [e].
Proof.
  unfold call. destruct (oracle w). reflexivity.
Qed.

Lemma call_outcome {A} (e : event) (oracle : W -> W * result A) (w : W) :
  outcome (call e oracle w) = snd (oracle w).
Proof.
  unfold call. destruct (oracle w). reflexivity.
Qed.

Lemma bind_ok {A B} (m : M W A) (f : A -> M W B) (w : W) (a : A) :
  outcome (m w) = Ok a ->
  bind m f w
  = {| final := final (f a (final (m w)));
       log := log (m w) ++ log (f a (final (m w)));
       outcome := outcome (f a (final (m w))) |}.
Proof.
  intros H. unfold bind. rewrite H. reflexivity.
Qed.

Lemma bind_raise {A B} (m : M W A) (f : A -> M W B) (w : W) (e : exn) :
  outcome (m w) = Raise e ->
  bind m f w = {| final := final (m w); log := log (m w); outcome := Raise e |}.
Proof.
  intros H. unfold bind. rewrite H. reflexivity.
Qed.

(** An outcome [Ok] of a sequence comes from an outcome [Ok] of its first
    part. *)
Lemma bind_ok_inv {A B} (m : M W A) (f : A -> M W B) (w : W) (b : B) :
  outcome (bind m f w) = Ok b ->
  exists a, outcome (m w) = Ok a /\ outcome (f a (final (m w))) = Ok b.
Proof.
  unfold bind. destruct (outcome (m w)) as [a | e] eqn:Hm; simpl.
  - intros H. exists a. split; [reflexivity | exact H].
  - discriminate.
Qed.

Lemma try_finally_ok_inv {A} (body : M W A) (cleanup : M W unit) (w : W) (a : A) :
  outcome (try_finally body cleanup w) = Ok a ->
  outcome (body w) = Ok a /\ outcome (cleanup (final (body w))) = Ok tt.
Proof.
  unfold try_finally. simpl.
  destruct (outcome (cleanup (final (body w)))) as [[] | e]; [| discriminate].
  intros H. split; [exact H | reflexivity].
Qed.

Lemma emits_only_ret (P : event -> Prop) {A} (a : A) :
  emits_only P (@ret W A a).
Proof. intros w. constructor. Qed.

Lemma emits_only_raise (P : event -> Prop) {A} (e : exn) :
  emits_only P (@raise W A e).
Proof. intros w. constructor. Qed.

Lemma emits_only_lift (P : event -> Prop) {A} (r : result A) :
  emits_only P (@lift W A r).
Proof. intros w. constructor. Qed.

Lemma emits_only_call (P : event -> Prop) {A} (e : event)
    (oracle : W -> W * result A) :
  P e -> emits_only P (call e oracle).
Proof.
  intros He w. rewrite call_log. constructor; [exact He | constructor].
Qed.

Lemma emits_only_bind (P : event -> Prop) {A B} (m : M W A) (f : A -> M W B) :
  emits_only P m -> (forall a, emits_only P (f a)) -> emits_only P (bind m f).
Proof.
  intros Hm Hf w. unfold bind.
  destruct (outcome (m w)); simpl.
  - apply Forall_app. split; [apply Hm | apply Hf].
  - apply Hm.
Qed.

Lemma emits_only_try_finally (P : event -> Prop) {A} (body : M W A)
    (cleanup : M W unit) :
  emits_only P body -> emits_only P cleanup ->
  emits_only P (try_finally body cleanup).
Proof.
  intros Hb Hc w. unfold try_finally. simpl.
  apply Forall_app. split; [apply Hb | apply Hc].
Qed.

Lemma emits_only_for_each (P : event -> Prop) {A} (l : list A)
    (body : A -> M W unit) :
  (forall x, emits_only P (body x)) -> emits_only P (for_each l body).
Proof.
  intros Hb. induction l as [| x l IH]; simpl.
  - apply emits_only_ret.
  - apply emits_only_bind; [apply Hb | intros _; exact IH].
Qed.

Lemma emits_only_if (P : event -> Prop) {A} (b : bool) (m1 m2 : M W A) :
  emits_only P m1 -> emits_only P m2 -> emits_only P (if b then m1 else m2).
Proof. destruct b; auto. Qed.

End Running.

(** Steps through the calls of a pipeline function whose oracles' answers
    are hypotheses. *)
Ltac emits_step :=
  first
    [ apply emits_only_ret | apply emits_only_raise | apply emits_only_lift
    | apply emits_only_call
    | apply emits_only_bind; [| intros ?]
    | apply emits_only_try_finally
    | apply emits_only_for_each; intros ?
    | apply emits_only_if ].

Section PipelineCalls.
Context {W : Type} (E : Env W).

Lemma write_lines_emits (P : event -> Prop) (path : string) (lines : list string) :
  (forall line, P (EFileWrite path line)) ->
  emits_only P (write_lines E path lines).
Proof.
  intros HP. induction lines as [| line lines IH]; simpl.
  - apply emits_only_ret.
  - apply emits_only_bind; [apply emits_only_call, HP | intros _; exact IH].
Qed.

(** When every write returns, every line has been written, in order. *)
Lemma write_lines_ok (path : string) (lines : list string) (w : W) :
  outcome (write_lines E path lines w) = Ok tt ->
  log (write_lines E path lines w) = map (EFileWrite path) lines.
Proof.
  revert w. induction lines as [| line lines IH]; intros w H; simpl in *.
  - reflexivity.
  - apply bind_ok_inv in H. destruct H as [[] [H1 H2]].
    rewrite (bind_ok _ _ w tt H1). simpl.
    rewrite call_log. simpl. f_equal. apply IH. exact H2.
Qed.

(** The calls of a serialization that returns: the clock, then the file
    opened, every line of the batch written, the file closed; the path
    returned is the path of that file. *)
Lemma responses_to_json_ok (dataframes : list DataFrame) (label mode : string)
    (w : W) (path : string) :
  outcome (responses_to_json E dataframes label mode w) = Ok path ->
  exists now,
    snd (utcnow E w) = Ok now
    /\ path = path_join (gettempdir E) (batch_filename label mode now)
    /\ log (responses_to_json E dataframes label mode w)
       = (ENow :: EOpen path
            :: map (EFileWrite path) (batch_lines E dataframes mode)
            ++ [EFileClose path])%list.
Proof.
  unfold responses_to_json. intros H.
  apply bind_ok_inv in H. destruct H as [now [Hnow H]].
  rewrite (bind_ok _ _ w now Hnow). cbn [log].
  set (p := path_join (gettempdir E) (batch_filename label mode now)) in *.
  set (w1 := final (call ENow (utcnow E) w)) in *.
  apply bind_ok_inv in H. destruct H as [[] [Hopen H]].
  rewrite (bind_ok _ _ w1 tt Hopen). cbn [log].
  set (w2 := final (call (EOpen p) (file_open E p) w1)) in *.
  apply bind_ok_inv in H. destruct H as [[] [Htry H]].
  rewrite (bind_ok _ _ w2 tt Htry). cbn [log].
  unfold ret in H. cbn in H. injection H as Hp.
  apply try_finally_ok_inv in Htry. destruct Htry as [Hw Hc].
  exists now. rewrite call_outcome in Hnow.
  split; [exact Hnow |]. split; [symmetry; exact Hp |].
  rewrite <- Hp.
  rewrite !call_log. unfold try_finally. cbn [log ret].
  rewrite (write_lines_ok _ _ _ Hw), call_log, app_nil_r. reflexivity.
Qed.

End PipelineCalls.

(** Decides [emits_only P m] for a pipeline function [m], call by call. *)
Ltac emits_auto :=
  repeat first
    [ emits_step
    | apply write_lines_emits; intros ?
    | match goal with
      | |- emits_only _ (match ?x with _ => _ end) => destruct x
      end
    | reflexivity ].

Section PipelineLogs.
Context {W : Type} (E : Env W).

(** Up to the serialization nothing touches the warehouse or removes a
    file. *)
Lemma write_batch_emits (mode : string) (loc : location) :
  emits_only (fun e => is_warehouse e = false /\ is_remove e = false)
    (write_batch E mode loc).
Proof.
  unfold write_batch, get_bbox, get_grid_points, get_weather, responses_to_json.
  emits_auto; split; reflexivity.
Qed.

(** A dry pass over a location makes no call to the warehouse. *)
Lemma ingest_location_dry_emits (mode : string) (conn : option connection)
    (loc : location) :
  emits_only (fun e => is_warehouse e = false)
    (ingest_location E mode true conn loc).
Proof.
  unfold ingest_location, write_batch, get_bbox, get_grid_points, get_weather,
    responses_to_json.
  simpl negb. cbv iota. emits_auto.
Qed.

(** A pass over a location neither opens nor closes the connection. *)
Lemma ingest_location_emits (mode : string) (dry_run : bool)
    (conn : option connection) (loc : location) :
  emits_only (fun e => is_connection e = false)
    (ingest_location E mode dry_run conn loc).
Proof.
  unfold ingest_location, upload_to_snowflake, write_batch, get_bbox,
    get_grid_points, get_weather, responses_to_json.
  emits_auto.
Qed.

(** The calls of a pass up to the serialization, when it returns. *)
Lemma write_batch_ok (mode : string) (loc : location) (w : W) (path : string) :
  outcome (write_batch E mode loc w) = Ok path ->
  exists box grid responses dataframes now,
    parse_responses responses (label_of loc) = Ok dataframes
    /\ path = path_join (gettempdir E) (batch_filename (label_of loc) mode now)
    /\ log (write_batch E mode loc w)
       = ([EGet nominatim_url (bbox_params loc);
           EWeatherApi forecast_url (grid_params box);
           EWeatherApi forecast_url
             (weather_params (map Latitude grid) (map Longitude grid) mode);
           ENow; EOpen path]
          ++ map (EFileWrite path) (batch_lines E dataframes mode)
          ++ [EFileClose path])%list.
Proof.
  unfold write_batch. intros H.
  apply bind_ok_inv in H. destruct H as [box [Hbox H]].
  rewrite (bind_ok _ _ w box Hbox). cbn [log].
  set (w1 := final (get_bbox E loc w)) in *.
  apply bind_ok_inv in H. destruct H as [grid [Hgrid H]].
  rewrite (bind_ok _ _ w1 grid Hgrid). cbn [log].
  set (w2 := final (get_grid_points E box w1)) in *.
  apply bind_ok_inv in H. destruct H as [responses [Hresp H]].
  rewrite (bind_ok _ _ w2 responses Hresp). cbn [log].
  set (w3 := final (get_weather E (fst grid) (snd grid) mode w2)) in *.
  apply bind_ok_inv in H. destruct H as [dataframes [Hdfs H]].
  rewrite (bind_ok _ _ w3 dataframes Hdfs). cbn [log final lift].
  apply bind_ok_inv in H. destruct H as [[] [Hrep H]].
  rewrite (bind_ok _ _ w3 tt Hrep). cbn [log final lift] in *.
  destruct (responses_to_json_ok E _ _ _ _ _ H) as [now [_ [Hpath Hlog]]].
  rewrite Hlog.
  (* the three requests *)
  unfold get_bbox in *.
  destruct (bind_ok_inv _ _ _ _ Hbox) as [answer [Hget _]].
  rewrite (bind_ok _ _ w answer Hget). cbn [log lift].
  unfold get_grid_points in *.
  destruct (bind_ok_inv _ _ _ _ Hgrid) as [cells [Hcells Hret]].
  rewrite (bind_ok _ _ w1 cells Hcells). cbn [log ret].
  unfold ret in Hret. cbn in Hret. injection Hret as Hgrid_eq.
  unfold get_weather. rewrite !call_log.
  exists box, cells, responses, dataframes, now.
  split; [exact Hdfs |]. split; [exact Hpath |].
  rewrite <- Hgrid_eq. reflexivity.
Qed.

End PipelineLogs.

(** ** The dry run *)

Section DryRun.
Context {W : Type} (E : Env W).

Lemma filter_file_writes (path : string) (lines : list string) :
  filter is_file (map (EFileWrite path) lines) = map (EFileWrite path) lines.
Proof.
  induction lines as [| line lines IH]; simpl; [| rewrite IH]; reflexivity.
Qed.

(** The file calls of a returning pass up to the serialization. *)
Lemma write_batch_file_calls (mode : string) (loc : location) (w : W)
    (path : string) :
  outcome (write_batch E mode loc w) = Ok path ->
  exists lines,
    filter is_file (log (write_batch E mode loc w))
    = (EOpen path :: map (EFileWrite path) lines ++ [EFileClose path])%list.
Proof.
  intros H.
  destruct (write_batch_ok E mode loc w path H)
    as [box [grid [responses [dataframes [now [_ [_ Hlog]]]]]]].
  exists (batch_lines E dataframes mode).
  rewrite Hlog. simpl. f_equal.
  rewrite filter_app, filter_file_writes. reflexivity.
Qed.

(** A dry pass that returns has opened, written, closed and then removed
    one file. *)
Lemma ingest_location_dry_cycle (mode : string) (conn : option connection)
    (loc : location) (w : W) :
  outcome (ingest_location E mode true conn loc w) = Ok tt ->
  file_cycle (filter is_file (log (ingest_location E mode true conn loc w))).
Proof.
  unfold ingest_location. simpl negb. cbv iota. intros H.
  apply bind_ok_inv in H. destruct H as [path [Hwb H]].
  rewrite (bind_ok _ _ w path Hwb). cbn [log].
  destruct (write_batch_file_calls mode loc w path Hwb) as [lines Hfiles].
  rewrite filter_app, Hfiles.
  unfold bind at 1. cbn [ret outcome final log].
  rewrite call_log. simpl.
  rewrite <- app_assoc. simpl.
  apply (file_cycle_intro path lines).
Qed.

Lemma for_each_dry_cycles (mode : string) (conn : option connection)
    (locations : list location) (w : W) :
  outcome (for_each locations (ingest_location E mode true conn) w) = Ok tt ->
  file_cycles (List.length locations)
    (filter is_file
       (log (for_each locations (ingest_location E mode true conn) w))).
Proof.
  revert w. induction locations as [| loc locations IH]; intros w H.
  - simpl. constructor.
  - simpl in H |- *.
    apply bind_ok_inv in H. destruct H as [[] [Hloc Hrest]].
    rewrite (bind_ok _ _ w tt Hloc). cbn [log].
    rewrite filter_app.
    apply file_cycles_cons.
    + apply ingest_location_dry_cycle. exact Hloc.
    + apply IH. exact Hrest.
Qed.

(** A dry run is the loop over the locations and nothing else. *)
Lemma ingest_dry_loop (mode : string) (locations : option (list location))
    (w : W) :
  log (ingest E mode locations true w)
  = log (for_each (configured locations) (ingest_location E mode true None) w)
  /\ outcome (ingest E mode locations true w)
  = outcome (for_each (configured locations) (ingest_location E mode true None) w).
Proof.
  unfold ingest. simpl negb. cbv iota. fold (configured locations).
  unfold bind, try_finally, ret, close_connection. cbn.
  rewrite app_nil_r. split; reflexivity.
Qed.

End DryRun.

(** ** The connection of a run *)

Section Connection.
Context {W : Type} (E : Env W).

(** What follows the connection in a run that is not dry: the loop over the
    locations, then the connection closed, whatever the loop did. *)
Lemma ingest_connected (mode : string) (locations : option (list location))
    (w w1 : W) (c : connection) :
  snowflake_connect E w = (w1, Ok c) ->
  let loop :=
    for_each (configured locations) (ingest_location E mode false (Some c)) w1 in
  let close := call (EConnClose c) (connection_close E c) (final loop) in
  log (ingest E mode locations false w)
  = (EConnect :: log loop ++ [EConnClose c])%list
  /\ outcome (ingest E mode locations false w)
  = match outcome close with
    | Ok _ => outcome loop
    | Raise e => Raise e
    end.
Proof.
  intros Hc loop close.
  assert (Hopen : (c' <- get_snowflake_connection E ;; ret (Some c')) w
                  = {| final := w1; log := [EConnect]; outcome := Ok (Some c) |}).
  { unfold get_snowflake_connection, bind.
    rewrite (call_run _ _ _ _ _ Hc). reflexivity. }
  unfold ingest. simpl negb. cbv iota. fold (configured locations).
  rewrite (bind_ok _ _ w (Some c)) by (rewrite Hopen; reflexivity).
  rewrite Hopen. cbn [outcome final log].
  unfold try_finally, close_connection. cbn [outcome final log].
  fold loop. fold close. unfold close. rewrite call_log.
  split; reflexivity.
Qed.

(** C6: a run that is not dry asks for the connection once, before
    anything else.  When the connection is made, the last call of the run
    closes that connection, and no call in between opens or closes one:
    this holds for every answer of the outside world, so on the return of
    the run and on every exception.  When the connection cannot be made the
    run stops there with that exception. *)
Theorem connection_lifecycle (mode : string)
    (locations : option (list location)) (w : W) :
  match snd (snowflake_connect E w) with
  | Ok c =>
      exists between,
        log (ingest E mode locations false w)
        = (EConnect :: between ++ [EConnClose c])%list
        /\ Forall (fun e => is_connection e = false) between
  | Raise e =>
      log (ingest E mode locations false w) = [EConnect]
      /\ outcome (ingest E mode locations false w) = Raise e
  end.
Proof.
  destruct (snowflake_connect E w) as [w1 [c | e]] eqn:Hc; simpl.
  - destruct (ingest_connected mode locations w w1 c Hc) as [Hlog _].
    eexists. split; [exact Hlog |].
    apply emits_only_for_each. intros loc. apply ingest_location_emits.
  - assert (Hopen : (c' <- get_snowflake_connection E ;; ret (Some c')) w
                    = {| final := w1; log := [EConnect]; outcome := Raise e |}).
    { unfold get_snowflake_connection, bind.
      rewrite (call_run _ _ _ _ _ Hc). reflexivity. }
    unfold ingest. simpl negb. cbv iota.
    rewrite (bind_raise _ _ w e) by (rewrite Hopen; reflexivity).
    rewrite Hopen. cbn [outcome final log].
    split; reflexivity.
Qed.

End Connection.

(** ** The serialized file of a pass *)

Section BatchFile.
Context {W : Type} (E : Env W).

Lemma out_eta {A} (o : Out W A) :
  o = {| final := final o; log := log o; outcome := outcome o |}.
Proof. destruct o. reflexivity. Qed.

(** A loop whose first part returns goes on with the rest from the world
    the first part left. *)
Lemma for_each_app_ok {A} (l1 l2 : list A) (body : A -> M W unit) (w : W) :
  outcome (for_each l1 body w) = Ok tt ->
  for_each (l1 ++ l2) body w
  = {| final := final (for_each l2 body (final (for_each l1 body w)));
       log := log (for_each l1 body w)
              ++ log (for_each l2 body (final (for_each l1 body w)));
       outcome := outcome (for_each l2 body (final (for_each l1 body w))) |}.
Proof.
  revert w. induction l1 as [| x l1 IH]; intros w H.
  - simpl. apply out_eta.
  - simpl in H |- *.
    apply bind_ok_inv in H. destruct H as [[] [Hx Hrest]].
    rewrite !(bind_ok _ _ w tt Hx). cbn [final log outcome].
    rewrite (IH _ Hrest). cbn [final log outcome].
    rewrite app_assoc. reflexivity.
Qed.

Lemma load_phase_emits (dry_run : bool) (conn : option connection)
    (path : string) :
  emits_only (fun e => is_remove e = false) (load_phase E dry_run conn path).
Proof.
  unfold load_phase, upload_to_snowflake. emits_auto.
Qed.

(** A pass whose serialization returned, by the outcome of its load
    phase. *)
Lemma ingest_location_after_write (mode : string) (dry_run : bool)
    (conn : option connection) (loc : location) (w : W) (path : string) :
  outcome (write_batch E mode loc w) = Ok path ->
  let wrote := write_batch E mode loc w in
  let load := load_phase E dry_run conn path (final wrote) in
  let pass := ingest_location E mode dry_run conn loc w in
  match outcome load with
  | Ok _ =>
      log pass = (log wrote ++ log load ++ [ERemove path])%list
      /\ outcome pass = snd (os_remove E path (final load))
  | Raise e =>
      log pass = (log wrote ++ log load)%list /\ outcome pass = Raise e
  end.
Proof.
  intros Hw wrote load pass.
  unfold pass, ingest_location.
  rewrite (bind_ok _ _ w path Hw). cbn [final log outcome].
  fold wrote. fold (load_phase E dry_run conn path). fold load.
  destruct (outcome load) as [[] | e] eqn:Hload.
  - rewrite (bind_ok _ _ (final wrote) tt Hload). cbn [final log outcome].
    fold load. rewrite call_log, call_outcome. split; reflexivity.
  - rewrite (bind_raise _ _ (final wrote) e Hload). cbn [final log outcome].
    fold load. split; reflexivity.
Qed.

(** C7: take any pass of the loop of [ingest] (the passes before it have
    returned) whose serialization has returned the path of its file.  When
    the load phase returns (it is empty in a dry run, so this is then right
    after the serialization), the next call removes that file.  When the
    load phase raises, the run stops with that exception: the calls of the
    load phase are its last ones, the later locations are not visited, and
    no call since the start of the pass has removed a file. *)
Theorem batch_file_removal (mode : string) (dry_run : bool)
    (conn : option connection) (done : list location) (loc : location)
    (rest : list location) (w : W) (path : string) :
  let body := ingest_location E mode dry_run conn in
  let before := for_each done body w in
  let wrote := write_batch E mode loc (final before) in
  let load := load_phase E dry_run conn path (final wrote) in
  let run := for_each (done ++ loc :: rest) body w in
  outcome before = Ok tt ->
  outcome wrote = Ok path ->
  match outcome load with
  | Ok _ =>
      exists after,
        log run
        = (log before ++ log wrote ++ log load ++ ERemove path :: after)%list
  | Raise e =>
      log run = (log before ++ log wrote ++ log load)%list
      /\ outcome run = Raise e
      /\ Forall (fun ev => is_remove ev = false) (log wrote ++ log load)
  end.
Proof.
  intros body before wrote load run Hbefore Hwrote.
  unfold run. rewrite (for_each_app_ok done (loc :: rest) body w Hbefore).
  fold before. cbn [final log outcome].
  pose proof (ingest_location_after_write mode dry_run conn loc (final before)
                path Hwrote) as Hpass.
  cbv zeta in Hpass. fold wrote in Hpass. fold load in Hpass.
  fold body in Hpass.
  simpl for_each.
  destruct (outcome load) as [[] | e] eqn:Hload.
  - destruct Hpass as [Hlog Hout].
    unfold bind. destruct (outcome (body loc (final before))) as [[] | e'].
    + cbn [log]. rewrite Hlog. eexists.
      rewrite <- !app_assoc. reflexivity.
    + cbn [log]. rewrite Hlog. exists []. reflexivity.
  - destruct Hpass as [Hlog Hout].
    rewrite (bind_raise _ _ (final before) e Hout). cbn [final log outcome].
    rewrite Hlog. repeat split.
    apply Forall_app. split.
    + eapply Forall_impl; [| apply (write_batch_emits E mode loc (final before))].
      intros ev [_ H]. exact H.
    + apply load_phase_emits.
Qed.

End BatchFile.

(** ** Failures before the serialization *)

Lemma bbox_of_json_failure (answer : list candidate) (e : exn) :
  resolution_failure answer = Some e -> bbox_of_json answer = Raise e.
Proof.
  unfold resolution_failure, bbox_of_json.
  destruct answer as [| c rest]; simpl.
  - intros H. injection H as <-. reflexivity.
  - destruct (boundingbox c); simpl.
    + discriminate.
    + intros H. injection H as <-. reflexivity.
Qed.

Section EarlyFailures.
Context {W : Type} (E : Env W).

Lemma get_bbox_run (loc : location) (w w1 : W) (answer : list candidate) :
  requests_get_json E nominatim_url (bbox_params loc) w = (w1, Ok answer) ->
  get_bbox E loc w
  = {| final := w1;
       log := [EGet nominatim_url (bbox_params loc)];
       outcome := bbox_of_json answer |}.
Proof.
  intros Hg. unfold get_bbox, bind.
  rewrite (call_run _ _ _ _ _ Hg). reflexivity.
Qed.

(** C5, as the code has it: when the geocoder answers with no candidate
    the resolution raises [IndexError], and when the first candidate has no
    bounding-box field it raises [KeyError].  The pass over the location
    ends with that exception after the single call to the geocoder: nothing
    is fetched, nothing is loaded and no file is opened or written. *)
Theorem unresolved_location (mode : string) (dry_run : bool)
    (conn : option connection) (loc : location) (w : W)
    (answer : list candidate) (e : exn) :
  snd (requests_get_json E nominatim_url (bbox_params loc) w) = Ok answer ->
  resolution_failure answer = Some e ->
  ((answer = [] /\ e = IndexError)
   \/ (exists c rest, answer = c :: rest /\ boundingbox c = None /\ e = KeyError))
  /\ outcome (get_bbox E loc w) = Raise e
  /\ outcome (ingest_location E mode dry_run conn loc w) = Raise e
  /\ log (ingest_location E mode dry_run conn loc w)
     = [EGet nominatim_url (bbox_params loc)].
Proof.
  intros Hanswer Hfail.
  destruct (requests_get_json E nominatim_url (bbox_params loc) w)
    as [w1 r] eqn:Hg.
  simpl in Hanswer. subst r.
  pose proof (get_bbox_run loc w w1 answer Hg) as Hrun.
  rewrite (bbox_of_json_failure answer e Hfail) in Hrun.
  assert (Hbox : outcome (get_bbox E loc w) = Raise e)
    by (rewrite Hrun; reflexivity).
  split; [| split; [exact Hbox |]].
  - unfold resolution_failure in Hfail.
    destruct answer as [| c rest].
    + left. injection Hfail as <-. split; reflexivity.
    + right. exists c, rest. destruct (boundingbox c); [discriminate |].
      injection Hfail as <-. repeat split.
  - unfold ingest_location.
    assert (Hwb : write_batch E mode loc w
                  = {| final := w1;
                       log := [EGet nominatim_url (bbox_params loc)];
                       outcome := Raise e |}).
    { unfold write_batch. rewrite (bind_raise _ _ w e Hbox).
      rewrite Hrun. reflexivity. }
    rewrite (bind_raise _ _ w e) by (rewrite Hwb; reflexivity).
    rewrite Hwb. split; reflexivity.
Qed.

(** C4, as the code has it: when the provider's answer to the hourly fetch
    holds a response with an array whose length is not the length of its
    index, the normalization raises [ValueError]; it returns no table at
    all, and the pass ends with that exception after the three requests,
    before any file is opened. *)
Theorem misaligned_response (mode : string) (dry_run : bool)
    (conn : option connection) (loc : location) (w : W)
    (answer : list candidate) (box : bbox) (cells responses : list response) :
  let geo := requests_get_json E nominatim_url (bbox_params loc) w in
  let grid := weather_api E forecast_url (grid_params box) (fst geo) in
  let hourly_params :=
    weather_params (map Latitude cells) (map Longitude cells) mode in
  let fetch := weather_api E forecast_url hourly_params (fst grid) in
  snd geo = Ok answer ->
  bbox_of_json answer = Ok box ->
  snd grid = Ok cells ->
  snd fetch = Ok responses ->
  Exists (fun r => aligned r = false) responses ->
  parse_responses responses (label_of loc) = Raise ValueError
  /\ outcome (ingest_location E mode dry_run conn loc w) = Raise ValueError
  /\ log (ingest_location E mode dry_run conn loc w)
     = [EGet nominatim_url (bbox_params loc);
        EWeatherApi forecast_url (grid_params box);
        EWeatherApi forecast_url hourly_params].
Proof.
  intros geo grid hourly_params fetch Hgeo Hbox Hgrid Hfetch Hex.
  pose proof (parse_responses_misaligned responses (label_of loc) Hex) as Hparse.
  split; [exact Hparse |].
  destruct geo as [w1 r1] eqn:Eg. simpl in Hgeo, grid. subst r1.
  destruct grid as [w2 r2] eqn:Egr. simpl in Hgrid, fetch. subst r2.
  destruct fetch as [w3 r3] eqn:Ef. simpl in Hfetch. subst r3.
  assert (Hwb : write_batch E mode loc w
                = {| final := w3;
                     log := [EGet nominatim_url (bbox_params loc);
                             EWeatherApi forecast_url (grid_params box);
                             EWeatherApi forecast_url hourly_params];
                     outcome := Raise ValueError |}).
  { unfold write_batch.
    pose proof (get_bbox_run loc w w1 answer Eg) as Hrun. rewrite Hbox in Hrun.
    rewrite (bind_ok _ _ w box) by (rewrite Hrun; reflexivity).
    rewrite Hrun. cbn [final log outcome].
    assert (Hcells : get_grid_points E box w1
                     = {| final := w2;
                          log := [EWeatherApi forecast_url (grid_params box)];
                          outcome := Ok (map Latitude cells, map Longitude cells) |}).
    { unfold get_grid_points, bind.
      rewrite (call_run _ _ _ _ _ Egr). reflexivity. }
    rewrite (bind_ok _ _ w1 (map Latitude cells, map Longitude cells))
      by (rewrite Hcells; reflexivity).
    rewrite Hcells. cbn [final log outcome fst snd].
    assert (Hresp : get_weather E (map Latitude cells) (map Longitude cells) mode w2
                    = {| final := w3;
                         log := [EWeatherApi forecast_url hourly_params];
                         outcome := Ok responses |}).
    { unfold get_weather. fold hourly_params.
      rewrite (call_run _ _ _ _ _ Ef). reflexivity. }
    rewrite (bind_ok _ _ w2 responses) by (rewrite Hresp; reflexivity).
    rewrite Hresp. cbn [final log outcome].
    rewrite (bind_raise _ _ w3 ValueError) by (unfold lift; cbn; exact Hparse).
    reflexivity. }
  unfold ingest_location.
  rewrite (bind_raise _ _ w ValueError) by (rewrite Hwb; reflexivity).
  rewrite Hwb. split; reflexivity.
Qed.

End EarlyFailures.

(** ** The name of the serialized file *)

Lemma safe_label_sanitize (label : string) : safe_label label = sanitize label.
Proof.
  unfold safe_label.
  induction label as [| c s IH]; simpl.
  - reflexivity.
  - unfold sanitize_char.
    destruct (Ascii.eqb c " ") eqn:Hsp; simpl.
    + rewrite IH. reflexivity.
    + destruct (Ascii.eqb c ","); simpl; rewrite IH; reflexivity.
Qed.

Lemma has_char_append (c : ascii) (s1 s2 : string) :
  has_char c (s1 ++ s2) = (has_char c s1 || has_char c s2)%bool.
Proof.
  induction s1 as [| a s1 IH]; simpl.
  - reflexivity.
  - rewrite IH, orb_assoc. reflexivity.
Qed.

Lemma sanitize_clean (label : string) :
  has_char " " (sanitize label) = false /\ has_char "," (sanitize label) = false.
Proof.
  induction label as [| c s [IH1 IH2]]; simpl.
  - split; reflexivity.
  - rewrite !has_char_append, IH1, IH2, !orb_false_r.
    unfold sanitize_char.
    destruct (Ascii.eqb c " ") eqn:Hsp; [split; reflexivity |].
    destruct (Ascii.eqb c ",") eqn:Hco; [split; reflexivity |].
    simpl. rewrite Hsp, Hco. split; reflexivity.
Qed.

Lemma digit_inj (n m : Z) :
  0 <= n <= 9 -> 0 <= m <= 9 -> digit n = digit m -> n = m.
Proof.
  unfold digit. intros Hn Hm H.
  apply (f_equal nat_of_ascii) in H.
  rewrite !nat_ascii_embedding in H by lia.
  lia.
Qed.

(** Arithmetic with quotients and remainders by constants. *)
Ltac div_lia := Z.div_mod_to_equations; lia.

Lemma pad2_inj (n m : Z) :
  0 <= n <= 99 -> 0 <= m <= 99 -> pad2 n = pad2 m -> n = m.
Proof.
  unfold pad2. intros Hn Hm H. injection H as H1 H0.
  apply digit_inj in H1; [| div_lia ..].
  apply digit_inj in H0; [| div_lia ..].
  div_lia.
Qed.

Lemma pad4_inj (n m : Z) :
  0 <= n <= 9999 -> 0 <= m <= 9999 -> pad4 n = pad4 m -> n = m.
Proof.
  unfold pad4, pad2. intros Hn Hm H. injection H as H3 H2 H1 H0.
  apply digit_inj in H3; [| div_lia ..].
  apply digit_inj in H2; [| div_lia ..].
  apply digit_inj in H1; [| div_lia ..].
  apply digit_inj in H0; [| div_lia ..].
  div_lia.
Qed.

Lemma str_length_app (a b : string) :
  String.length (a ++ b) = (String.length a + String.length b)%nat.
Proof.
  induction a as [| c a IH]; simpl; [| rewrite IH]; reflexivity.
Qed.

Lemma str_app_assoc (a b c : string) : (a ++ b) ++ c = a ++ b ++ c.
Proof.
  induction a as [| x a IH]; simpl; [| rewrite IH]; reflexivity.
Qed.

Lemma str_app_inj_prefix (a b x y : string) :
  String.length a = String.length b -> a ++ x = b ++ y -> a = b /\ x = y.
Proof.
  revert b. induction a as [| c a IH]; intros [| c' b] Hlen H;
    simpl in *; try discriminate.
  - split; [reflexivity | exact H].
  - injection H as Hc H. injection Hlen as Hlen.
    destruct (IH b Hlen H) as [-> ->]. subst. split; reflexivity.
Qed.

Lemma str_app_inj_suffix (a b x y : string) :
  String.length x = String.length y -> a ++ x = b ++ y -> a = b /\ x = y.
Proof.
  intros Hlen H. apply str_app_inj_prefix; [| exact H].
  apply (f_equal String.length) in H.
  rewrite !str_length_app in H. lia.
Qed.

Lemma pad2_length (n : Z) : String.length (pad2 n) = 2%nat.
Proof. reflexivity. Qed.

Lemma pad4_length (n : Z) : String.length (pad4 n) = 4%nat.
Proof. reflexivity. Qed.

Lemma strftime_stamp_length (t : datetime) :
  String.length (strftime_stamp t) = 15%nat.
Proof.
  unfold strftime_stamp.
  rewrite !str_length_app, pad4_length, !pad2_length. reflexivity.
Qed.

(** The civil date of a day number: the day number is found back from it,
    the month and the day are in their ranges, and so is the year for the
    days of the representable instants. *)
Lemma civil_from_days_fields (z : Z) :
  exists y m d,
    civil_from_days z = (y, m, d)
    /\ days_from_civil y m d = z
    /\ 1 <= m <= 12 /\ 1 <= d <= 31
    /\ (-106752 <= z <= 106751 -> 1600 <= y <= 2400).
Proof.
  unfold civil_from_days.
  set (z' := z + 719468).
  set (era := z' / 146097).
  set (doe := z' - era * 146097).
  assert (Hdoe : 0 <= doe < 146097).
  { unfold doe, era. Z.div_mod_to_equations. lia. }
  set (yoe := (doe - doe / 1460 + doe / 36524 - doe / 146096) / 365).
  assert (Hyoe : 0 <= yoe <= 399).
  { unfold yoe. Z.div_mod_to_equations. lia. }
  set (doy := doe - (365 * yoe + yoe / 4 - yoe / 100)).
  assert (Hdoy : 0 <= doy <= 365).
  { unfold doy, yoe. Z.div_mod_to_equations. lia. }
  set (mp := (5 * doy + 2) / 153).
  assert (Hmp : 0 <= mp <= 11).
  { unfold mp. Z.div_mod_to_equations. lia. }
  set (d := doy - (153 * mp + 2) / 5 + 1).
  assert (Hd : 1 <= d <= 31).
  { unfold d, mp. Z.div_mod_to_equations. lia. }
  cbv zeta.
  set (m := if mp <? 10 then mp + 3 else mp - 9).
  assert (Hm : 1 <= m <= 12 /\ (if 2 <? m then m - 3 else m + 9) = mp).
  { unfold m. destruct (Z.ltb_spec mp 10).
    - destruct (Z.ltb_spec 2 (mp + 3)); lia.
    - destruct (Z.ltb_spec 2 (mp - 9)); lia. }
  destruct Hm as [Hm Hback].
  exists (if m <=? 2 then yoe + era * 400 + 1 else yoe + era * 400), m, d.
  split; [reflexivity |]. split; [| split; [exact Hm | split; [exact Hd |]]].
  - unfold days_from_civil. rewrite Hback.
    replace (if m <=? 2
             then (if m <=? 2 then yoe + era * 400 + 1 else yoe + era * 400) - 1
             else (if m <=? 2 then yoe + era * 400 + 1 else yoe + era * 400))
      with (yoe + era * 400) by (destruct (m <=? 2); lia).
    replace ((yoe + era * 400) / 400) with era
      by (Z.div_mod_to_equations; lia).
    replace (yoe + era * 400 - era * 400) with yoe by lia.
    unfold d, doy, doe, z'. lia.
  - intros Hz.
    assert (Hera : 4 <= era <= 5).
    { unfold era, z'. Z.div_mod_to_equations. lia. }
    destruct (m <=? 2); lia.
Qed.

(** The text of an instant determines the instant. *)
Lemma astype_str_inj (t1 t2 : Z) :
  representable t1 -> representable t2 ->
  astype_str t1 = astype_str t2 -> t1 = t2.
Proof.
  unfold representable, astype_str. intros R1 R2.
  destruct (civil_from_days_fields (t1 / 86400))
    as [y1 [m1 [d1 [-> [B1 [Hm1 [Hd1 Hy1]]]]]]].
  destruct (civil_from_days_fields (t2 / 86400))
    as [y2 [m2 [d2 [-> [B2 [Hm2 [Hd2 Hy2]]]]]]].
  assert (Z1 : -106752 <= t1 / 86400 <= 106751) by div_lia.
  assert (Z2 : -106752 <= t2 / 86400 <= 106751) by div_lia.
  specialize (Hy1 Z1). specialize (Hy2 Z2).
  cbv zeta. intros H.
  apply str_app_inj_prefix in H; [| reflexivity]. destruct H as [Hy H].
  apply str_app_inj_prefix in H; [| reflexivity]. destruct H as [_ H].
  apply str_app_inj_prefix in H; [| reflexivity]. destruct H as [Hm H].
  apply str_app_inj_prefix in H; [| reflexivity]. destruct H as [_ H].
  apply str_app_inj_prefix in H; [| reflexivity]. destruct H as [Hd H].
  apply str_app_inj_prefix in H; [| reflexivity]. destruct H as [_ H].
  apply str_app_inj_prefix in H; [| reflexivity]. destruct H as [Hh H].
  apply str_app_inj_prefix in H; [| reflexivity]. destruct H as [_ H].
  apply str_app_inj_prefix in H; [| reflexivity]. destruct H as [Hmi H].
  apply str_app_inj_prefix in H; [| reflexivity]. destruct H as [_ H].
  apply str_app_inj_prefix in H; [| reflexivity]. destruct H as [Hs _].
  apply pad4_inj in Hy; [| lia ..].
  apply pad2_inj in Hm; [| lia ..].
  apply pad2_inj in Hd; [| lia ..].
  apply pad2_inj in Hh; [| div_lia ..].
  apply pad2_inj in Hmi; [| div_lia ..].
  apply pad2_inj in Hs; [| div_lia ..].
  subst y2 m2 d2.
  assert (Hday : t1 / 86400 = t2 / 86400) by congruence.
  div_lia.
Qed.

(** The stamp of a datetime determines it up to the second. *)
Lemma strftime_stamp_inj (t1 t2 : datetime) :
  valid_datetime t1 -> valid_datetime t2 ->
  strftime_stamp t1 = strftime_stamp t2 -> to_second t1 = to_second t2.
Proof.
  unfold valid_datetime, strftime_stamp, to_second.
  intros V1 V2 H.
  apply str_app_inj_prefix in H; [| reflexivity]. destruct H as [Hy H].
  apply str_app_inj_prefix in H; [| reflexivity]. destruct H as [Hm H].
  apply str_app_inj_prefix in H; [| reflexivity]. destruct H as [Hd H].
  apply str_app_inj_prefix in H; [| reflexivity]. destruct H as [_ H].
  apply str_app_inj_prefix in H; [| reflexivity]. destruct H as [Hh H].
  apply str_app_inj_prefix in H; [| reflexivity]. destruct H as [Hmi Hs].
  apply pad4_inj in Hy; [| lia ..].
  apply pad2_inj in Hm; [| lia ..].
  apply pad2_inj in Hd; [| lia ..].
  apply pad2_inj in Hh; [| lia ..].
  apply pad2_inj in Hmi; [| lia ..].
  apply pad2_inj in Hs; [| lia ..].
  congruence.
Qed.

(** C9, as the code has it: the name of the file is the label in which
    every space has become an underscore and every comma has been dropped
    (so it holds neither), then the mode, then the UTC time of the run
    printed to the second, joined by underscores, with the suffix [.json].
    It is a function of the label, the mode and the clock's datetime up to
    the second; two runs whose clocks differ by the second or more get
    different names, whatever their labels and modes. *)
Theorem batch_filename_spec (label mode : string) (now : datetime) :
  batch_filename label mode now
  = sanitize label ++ "_" ++ mode ++ "_" ++ strftime_stamp now ++ ".json"
  /\ has_char " " (safe_label label) = false
  /\ has_char "," (safe_label label) = false
  /\ (forall now',
        to_second now' = to_second now ->
        batch_filename label mode now' = batch_filename label mode now)
  /\ (forall label' mode' now',
        valid_datetime now -> valid_datetime now' ->
        batch_filename label' mode' now' = batch_filename label mode now ->
        to_second now' = to_second now).
Proof.
  unfold batch_filename. rewrite safe_label_sanitize.
  destruct (sanitize_clean label) as [Hsp Hco].
  repeat split; try assumption.
  - intros now' Hsec. unfold strftime_stamp, to_second in *.
    injection Hsec as -> -> -> -> -> ->. reflexivity.
  - intros label' mode' now' V V' H.
    rewrite <- !str_app_assoc in H.
    apply str_app_inj_suffix in H; [| reflexivity]. destruct H as [H _].
    apply str_app_inj_suffix in H;
      [| rewrite !strftime_stamp_length; reflexivity].
    destruct H as [_ H].
    apply strftime_stamp_inj; assumption.
Qed.

(** ** The mode is not validated *)


Lemma weather_params_hourly (latitudes longitudes : list float) (mode : string) :
  dict_get (weather_params latitudes longitudes mode) "hourly"
  = Some (PStrs ["temperature_2m"; "is_day";
                 "precipitation_probability"; "precipitation"]).
Proof.
  unfold weather_params. destruct (String.eqb mode "history"); reflexivity.
Qed.


Lemma tagged_record_fields (mode : string) (r : row) :
  tagged_record mode r = (to_dict_record r ++ [("mode", JStr mode)])%list.
Proof. reflexivity. Qed.


Section Mode.
Context {W : Type} (E : Env W).




End Mode.

(** ** The round trip of the JSON text *)

(** Reading undoes the escape of one character. *)
Lemma read_string_escape_char (c : ascii) (rest : string) :
  read_string (escape_char c ++ rest) = cons_char c (read_string rest).
Proof.
  destruct c as [[] [] [] [] [] [] [] []]; reflexivity.
Qed.

Lemma read_string_escape (s rest : string) :
  read_string (escape s ++ String dquote rest) = Some (s, rest).
Proof.
  induction s as [| c s IH]; simpl.
  - reflexivity.
  - rewrite str_app_assoc, read_string_escape_char, IH. reflexivity.
Qed.

Lemma escape_char_no_LF (c : ascii) : has_char LF (escape_char c) = false.
Proof.
  destruct c as [[] [] [] [] [] [] [] []]; reflexivity.
Qed.

Lemma escape_no_LF (s : string) : has_char LF (escape s) = false.
Proof.
  induction s as [| c s IH]; simpl.
  - reflexivity.
  - rewrite has_char_append, escape_char_no_LF, IH. reflexivity.
Qed.

Lemma delimiter_not_quote (d : ascii) :
  is_delimiter d = true -> Nat.eqb (nat_of_ascii d) 34 = false.
Proof.
  destruct d as [[] [] [] [] [] [] [] []]; intros H;
    first [reflexivity | discriminate H].
Qed.

Lemma read_token_number (t : string) (d : ascii) (rest : string) :
  number_text t = true -> is_delimiter d = true ->
  read_token (t ++ String d rest) = (t, String d rest).
Proof.
  intros Ht Hd. induction t as [| c t IH]; simpl in *.
  - rewrite Hd. reflexivity.
  - apply andb_true_iff in Ht. destruct Ht as [Hc Ht].
    apply andb_true_iff in Hc. destruct Hc as [Hc _].
    apply negb_true_iff in Hc. rewrite Hc, (IH Ht). reflexivity.
Qed.

Section RoundTrip.
Variable repr : float -> string.
Variable parse : string -> option float.

Lemma read_value_dumps (v : jval) (d : ascii) (rest : string) :
  value_ok repr parse v -> is_delimiter d = true ->
  read_value parse (json_value repr v ++ String d rest)
  = Some (v, String d rest).
Proof.
  intros Hv Hd. destruct v as [s | x]; simpl in *.
  - unfold dquote. simpl.
    rewrite str_app_assoc. simpl.
    rewrite read_string_escape. reflexivity.
  - destruct Hv as [Hparse Htext].
    pose proof (read_token_number (repr x) d rest Htext Hd) as Htok.
    unfold read_value.
    destruct (repr x) as [| c t] eqn:Hr; simpl in *.
    + rewrite (delimiter_not_quote d Hd), Hd, Hparse. reflexivity.
    + apply andb_true_iff in Htext. destruct Htext as [Hc _].
      apply andb_true_iff in Hc. destruct Hc as [Hdel Hq].
      apply negb_true_iff in Hq. apply negb_true_iff in Hdel.
      rewrite Hq. rewrite Hdel in Htok |- *.
      destruct (read_token (t ++ String d rest)) as [t' r'].
      injection Htok as <- <-. rewrite Hparse. reflexivity.
Qed.

Lemma read_member_dumps (kv : string * jval) (d : ascii) (rest : string) :
  value_ok repr parse (snd kv) -> is_delimiter d = true ->
  read_member parse (json_member repr kv ++ String d rest)
  = Some (kv, String d rest).
Proof.
  intros Hv Hd. destruct kv as [k v]. unfold json_member, json_string.
  simpl fst. simpl snd in *. simpl.
  rewrite !str_app_assoc. simpl.
  rewrite read_string_escape. simpl.
  rewrite (read_value_dumps v d rest Hv Hd). reflexivity.
Qed.

Lemma json_member_starts (kv : string * jval) :
  exists t, json_member repr kv = String dquote t.
Proof.
  destruct kv as [k v]. unfold json_member, json_string. simpl. eauto.
Qed.

Lemma read_members_dumps (record : dict jval) (fuel : nat) :
  record <> [] -> record_ok repr parse record ->
  (List.length record <= fuel)%nat ->
  read_members parse fuel (join ", " (map (json_member repr) record) ++ "}")
  = Some record.
Proof.
  revert fuel. induction record as [| kv record IH]; intros fuel Hne Hok Hfuel.
  - contradiction.
  - inversion Hok as [| ? ? Hkv Hrest]; subst.
    destruct fuel as [| fuel]; [simpl in Hfuel; lia |].
    destruct record as [| kv' record].
    + change (join ", " (map (json_member repr) [kv]))
        with (json_member repr kv).
      cbn [read_members].
      rewrite (read_member_dumps kv "}" "" Hkv eq_refl). reflexivity.
    + change (join ", " (map (json_member repr) (kv :: kv' :: record)))
        with (json_member repr kv ++ ", "
              ++ join ", " (map (json_member repr) (kv' :: record))).
      rewrite !str_app_assoc.
      change (", " ++ join ", " (map (json_member repr) (kv' :: record)) ++ "}")
        with (String "," (String " "
                (join ", " (map (json_member repr) (kv' :: record)) ++ "}"))).
      cbn [read_members].
      rewrite (read_member_dumps kv "," _ Hkv eq_refl).
      cbn [nat_of_ascii]. simpl Nat.eqb. cbv iota.
      rewrite (IH fuel); [reflexivity | discriminate | exact Hrest |].
      simpl in Hfuel |- *. lia.
Qed.

Lemma join_members_length (record : dict jval) :
  (List.length record
   <= String.length (join ", " (map (json_member repr) record)))%nat.
Proof.
  induction record as [| kv record IH]; [simpl; lia |].
  destruct (json_member_starts kv) as [t Ht].
  destruct record as [| kv' record].
  - change (join ", " (map (json_member repr) [kv]))
      with (json_member repr kv).
    rewrite Ht. simpl. lia.
  - change (join ", " (map (json_member repr) (kv :: kv' :: record)))
      with (json_member repr kv ++ ", "
            ++ join ", " (map (json_member repr) (kv' :: record))).
    rewrite Ht, !str_length_app. simpl in IH |- *. lia.
Qed.

(** [json.loads(json.dumps(record))] is the record. *)
Lemma json_loads_dumps (record : dict jval) :
  record_ok repr parse record ->
  json_loads parse (json_dumps repr record) = Some record.
Proof.
  intros Hok. unfold json_dumps.
  destruct record as [| kv record]; [reflexivity |].
  set (members := join ", " (map (json_member repr) (kv :: record))).
  change ("{" ++ members ++ "}") with (String "{" (members ++ "}")).
  assert (Hread : read_members parse (String.length (members ++ "}"))
                    (members ++ "}") = Some (kv :: record)).
  { apply read_members_dumps; [discriminate | exact Hok |].
    rewrite str_length_app.
    pose proof (join_members_length (kv :: record)). fold members in H. lia. }
  unfold json_loads. cbn [nat_of_ascii]. simpl Nat.eqb. cbv iota.
  assert (Hq : exists t, members ++ "}" = String dquote t).
  { unfold members. destruct (json_member_starts kv) as [t Ht].
    destruct record as [| kv' record].
    - change (join ", " (map (json_member repr) [kv]))
        with (json_member repr kv).
      rewrite Ht. simpl. eauto.
    - change (join ", " (map (json_member repr) (kv :: kv' :: record)))
        with (json_member repr kv ++ ", "
              ++ join ", " (map (json_member repr) (kv' :: record))).
      rewrite Ht. simpl. eauto. }
  destruct Hq as [t Ht]. rewrite Ht in *.
  destruct t as [| c t]; exact Hread.
Qed.

End RoundTrip.

(** *** Lines *)

Lemma not_LF_code (c : ascii) :
  Ascii.eqb c LF = false -> Nat.eqb (nat_of_ascii c) 10 = false.
Proof.
  destruct c as [[] [] [] [] [] [] [] []]; intros H;
    first [reflexivity | discriminate H].
Qed.

Lemma not_delimiter_not_LF (c : ascii) :
  is_delimiter c = false -> Ascii.eqb c LF = false.
Proof.
  destruct c as [[] [] [] [] [] [] [] []]; intros H;
    first [reflexivity | discriminate H].
Qed.

Lemma number_text_no_LF (t : string) :
  number_text t = true -> has_char LF t = false.
Proof.
  induction t as [| c t IH]; simpl; [reflexivity |].
  intros H. apply andb_true_iff in H. destruct H as [Hc Ht].
  apply andb_true_iff in Hc. destruct Hc as [Hd _].
  apply negb_true_iff in Hd.
  rewrite (not_delimiter_not_LF c Hd), (IH Ht). reflexivity.
Qed.

Lemma take_line_app (line rest : string) :
  has_char LF line = false ->
  take_line (line ++ String LF rest) = Some (line, rest).
Proof.
  induction line as [| c line IH]; simpl; intros H.
  - reflexivity.
  - apply orb_false_iff in H. destruct H as [Hc Hline].
    rewrite (not_LF_code c Hc), (IH Hline). reflexivity.
Qed.

Lemma lines_of_text (lines : list string) (fuel : nat) :
  Forall (fun line => has_char LF line = false) lines ->
  (List.length lines <= fuel)%nat ->
  lines_of fuel (text_of (map end_line lines)) = Some lines.
Proof.
  revert fuel. induction lines as [| line lines IH]; intros fuel Hno Hfuel.
  - destruct fuel; reflexivity.
  - inversion Hno as [| ? ? Hline Hrest]; subst.
    destruct fuel as [| fuel]; [simpl in Hfuel; lia |].
    simpl text_of. unfold end_line at 1.
    rewrite str_app_assoc. simpl append.
    destruct (line ++ String LF (text_of (map end_line lines))) eqn:Htext.
    { destruct line; discriminate. }
    cbn [lines_of]. rewrite <- Htext.
    rewrite take_line_app by exact Hline.
    rewrite IH; [reflexivity | exact Hrest | simpl in Hfuel; lia].
Qed.

Lemma text_of_length (lines : list string) :
  (List.length lines <= String.length (text_of (map end_line lines)))%nat.
Proof.
  induction lines as [| line lines IH]; simpl; [lia |].
  unfold end_line at 1. rewrite !str_length_app. simpl. lia.
Qed.

Lemma written_app (path : string) (l1 l2 : list event) :
  written path (l1 ++ l2) = written path l1 ++ written path l2.
Proof.
  induction l1 as [| e l1 IH]; simpl; [reflexivity |].
  destruct e; try exact IH.
  destruct (String.eqb path0 path); [| exact IH].
  rewrite IH, str_app_assoc. reflexivity.
Qed.

Lemma written_writes (path : string) (lines : list string) :
  written path (map (EFileWrite path) lines) = text_of lines.
Proof.
  induction lines as [| line lines IH]; simpl; [reflexivity |].
  rewrite String.eqb_refl, IH. reflexivity.
Qed.

Lemma str_app_empty_r (s : string) : s ++ "" = s.
Proof.
  induction s as [| c s IH]; simpl; [| rewrite IH]; reflexivity.
Qed.

Section RoundTripLines.
Variable repr : float -> string.
Variable parse : string -> option float.

Lemma json_string_no_LF (s : string) : has_char LF (json_string s) = false.
Proof.
  unfold json_string. simpl.
  rewrite has_char_append, escape_no_LF. reflexivity.
Qed.

Lemma json_member_no_LF (kv : string * jval) :
  value_ok repr parse (snd kv) -> has_char LF (json_member repr kv) = false.
Proof.
  destruct kv as [k v]. unfold json_member. simpl fst. simpl snd.
  intros Hv. rewrite !has_char_append, json_string_no_LF. simpl.
  destruct v as [s | x]; simpl.
  - apply json_string_no_LF.
  - destruct Hv as [_ Ht]. apply number_text_no_LF. exact Ht.
Qed.

Lemma join_no_LF (record : dict jval) :
  record_ok repr parse record ->
  has_char LF (join ", " (map (json_member repr) record)) = false.
Proof.
  induction record as [| kv record IH]; intros Hok; [reflexivity |].
  inversion Hok as [| ? ? Hkv Hrest]; subst.
  destruct record as [| kv' record].
  - change (join ", " (map (json_member repr) [kv]))
      with (json_member repr kv).
    apply json_member_no_LF. exact Hkv.
  - change (join ", " (map (json_member repr) (kv :: kv' :: record)))
      with (json_member repr kv ++ ", "
            ++ join ", " (map (json_member repr) (kv' :: record))).
    rewrite !has_char_append, (json_member_no_LF kv Hkv), (IH Hrest).
    reflexivity.
Qed.

Lemma json_dumps_no_LF (record : dict jval) :
  record_ok repr parse record ->
  has_char LF (json_dumps repr record) = false.
Proof.
  intros Hok. unfold json_dumps.
  rewrite !has_char_append, (join_no_LF record Hok). reflexivity.
Qed.

Lemma loads_all_dumps (records : list (dict jval)) :
  Forall (record_ok repr parse) records ->
  loads_all parse (map (json_dumps repr) records) = Some records.
Proof.
  induction 1 as [| record records Hok _ IH]; cbn [map loads_all].
  - reflexivity.
  - rewrite (json_loads_dumps repr parse record Hok), IH. reflexivity.
Qed.

(** Reading the text of the lines written for a list of records gives the
    list back. *)
Lemma read_ndjson_dumps (records : list (dict jval)) :
  Forall (record_ok repr parse) records ->
  read_ndjson parse
    (text_of (map (fun record => json_dumps repr record ++ String LF "") records))
  = Some records.
Proof.
  intros Hok. unfold read_ndjson.
  change (map (fun record => json_dumps repr record ++ String LF "") records)
    with (map (fun record => end_line (json_dumps repr record)) records).
  rewrite <- (map_map (json_dumps repr) end_line).
  rewrite lines_of_text.
  - apply loads_all_dumps. exact Hok.
  - apply Forall_map. eapply Forall_impl; [| exact Hok].
    intros record. apply json_dumps_no_LF.
  - apply text_of_length.
Qed.

End RoundTripLines.

(** ** The round trip of a batch *)

Lemma tagged_record_ok (repr : float -> string)
    (parse : string -> option float) (mode : string) (r : row) :
  Forall (codec_ok repr parse) (row_floats r) ->
  record_ok repr parse (tagged_record mode r).
Proof.
  unfold row_floats. intros H.
  repeat match goal with
         | H : Forall _ (_ :: _) |- _ => inversion H; clear H; subst
         end.
  rewrite tagged_record_fields. unfold record_ok, to_dict_record.
  repeat (apply Forall_cons; [simpl; first [exact I | assumption] |]).
  apply Forall_nil.
Qed.

Lemma batch_records_ok (repr : float -> string)
    (parse : string -> option float) (dataframes : list DataFrame)
    (mode : string) :
  batch_codec_ok repr parse dataframes ->
  Forall (record_ok repr parse) (batch_records dataframes mode).
Proof.
  unfold batch_codec_ok, batch_records.
  induction 1 as [| df dfs Hdf _ IH]; simpl.
  - constructor.
  - apply Forall_app. split; [| exact IH].
    apply Forall_map. eapply Forall_impl; [| exact Hdf].
    intros r. apply tagged_record_ok.
Qed.

Section BatchRoundTrip.
Context {W : Type} (E : Env W).

(** C8: when the serialization of a batch returns, and every number of the
    batch is printed to a text that parses back to it, reading the lines
    written to the file gives, in the order of the tables and of their
    rows, one record for every row in memory: the eight fields of the row
    under their names (the timestamp as its text, the label and the six
    numbers as they are) and the key ["mode"] with the mode of the batch.
    The text of a timestamp determines its instant: two rows whose records
    hold the same text are of the same instant. *)
Theorem serialization_round_trip (parse : string -> option float)
    (dataframes : list DataFrame) (label mode : string) (w : W)
    (path : string) :
  outcome (responses_to_json E dataframes label mode w) = Ok path ->
  batch_codec_ok (float_repr E) parse dataframes ->
  read_ndjson parse
    (written path (log (responses_to_json E dataframes label mode w)))
  = Some (flat_map (map (record_of_row mode)) dataframes)
  /\ Forall (fun record => dict_get record "mode" = Some (JStr mode))
       (flat_map (map (record_of_row mode)) dataframes)
  /\ (forall r1 r2,
        representable (timestamp r1) -> representable (timestamp r2) ->
        dict_get (record_of_row mode r1) "timestamp"
        = dict_get (record_of_row mode r2) "timestamp" ->
        timestamp r1 = timestamp r2).
Proof.
  intros Hok Hcodec.
  destruct (responses_to_json_ok E dataframes label mode w path Hok)
    as [now [_ [_ Hlog]]].
  rewrite Hlog.
  change (ENow :: EOpen path
            :: map (EFileWrite path) (batch_lines E dataframes mode)
            ++ [EFileClose path])%list
    with ([ENow; EOpen path]
            ++ map (EFileWrite path) (batch_lines E dataframes mode)
            ++ [EFileClose path])%list.
  rewrite !written_app, written_writes. simpl written.
  rewrite str_app_empty_r.
  split; [| split].
  - unfold batch_lines.
    apply (read_ndjson_dumps (float_repr E) parse (batch_records dataframes mode)).
    apply batch_records_ok. exact Hcodec.
  - apply Forall_forall. intros record Hin.
    apply in_flat_map in Hin. destruct Hin as [df [_ Hin]].
    apply in_map_iff in Hin. destruct Hin as [r [<- _]].
    reflexivity.
  - intros r1 r2 R1 R2 H.
    change (Some (JStr (astype_str (timestamp r1)))
            = Some (JStr (astype_str (timestamp r2)))) in H.
    apply astype_str_inj; [exact R1 | exact R2 | congruence].
Qed.

End BatchRoundTrip.

(** ** Passes whose collaborators answer *)

(** The calls of a sequence begin with the calls of its first part. *)
Lemma bind_log_prefix {W A B} (m : M W A) (f : A -> M W B) (w : W) :
  exists tail, log (bind m f w) = (log (m w) ++ tail)%list.
Proof.
  unfold bind. destruct (outcome (m w)); cbn [log].
  - eexists. reflexivity.
  - exists []. rewrite app_nil_r. reflexivity.
Qed.

Lemma report_tables_rows (dataframes : list DataFrame) :
  Forall (fun df => df <> []) dataframes -> report_tables dataframes = Ok tt.
Proof.
  induction 1 as [| df dfs Hdf _ IH]; [reflexivity |].
  destruct df as [| row df]; [contradiction |]. simpl. exact IH.
Qed.

Section AnsweredPass.
Context {W : Type} (E : Env W).

(** A pass whose three requests are answered goes on from the responses of
    the fetch. *)
Lemma write_batch_fetched (mode : string) (loc : location) (w w1 w2 w3 : W)
    (answer : list candidate) (box : bbox) (cells responses : list response) :
  requests_get_json E nominatim_url (bbox_params loc) w = (w1, Ok answer) ->
  bbox_of_json answer = Ok box ->
  weather_api E forecast_url (grid_params box) w1 = (w2, Ok cells) ->
  weather_api E forecast_url
    (weather_params (map Latitude cells) (map Longitude cells) mode) w2
  = (w3, Ok responses) ->
  let rest :=
    (dataframes <- lift (parse_responses responses (label_of loc)) ;;
     lift (report_tables dataframes) ;;;
     responses_to_json E dataframes (label_of loc) mode) w3 in
  write_batch E mode loc w
  = {| final := final rest;
       log := [EGet nominatim_url (bbox_params loc);
               EWeatherApi forecast_url (grid_params box);
               EWeatherApi forecast_url
                 (weather_params (map Latitude cells) (map Longitude cells) mode)]
              ++ log rest;
       outcome := outcome rest |}.
Proof.
  intros Eg Hbox Egr Ef rest.
  unfold write_batch.
  pose proof (get_bbox_run E loc w w1 answer Eg) as Hrun. rewrite Hbox in Hrun.
  rewrite (bind_ok _ _ w box) by (rewrite Hrun; reflexivity).
  rewrite Hrun. cbn [final log outcome].
  assert (Hcells : get_grid_points E box w1
                   = {| final := w2;
                        log := [EWeatherApi forecast_url (grid_params box)];
                        outcome := Ok (map Latitude cells, map Longitude cells) |}).
  { unfold get_grid_points, bind.
    rewrite (call_run _ _ _ _ _ Egr). reflexivity. }
  rewrite (bind_ok _ _ w1 (map Latitude cells, map Longitude cells))
    by (rewrite Hcells; reflexivity).
  rewrite Hcells. cbn [final log outcome fst snd].
  assert (Hresp : get_weather E (map Latitude cells) (map Longitude cells) mode w2
                  = {| final := w3;
                       log := [EWeatherApi forecast_url
                                 (weather_params (map Latitude cells)
                                    (map Longitude cells) mode)];
                       outcome := Ok responses |}).
  { unfold get_weather. rewrite (call_run _ _ _ _ _ Ef). reflexivity. }
  rewrite (bind_ok _ _ w2 responses) by (rewrite Hresp; reflexivity).
  rewrite Hresp. cbn [final log outcome].
  fold rest. reflexivity.
Qed.

Lemma write_lines_answered (path : string) (lines : list string) (w : W) :
  (forall line w', snd (file_write E path line w') = Ok tt) ->
  outcome (write_lines E path lines w) = Ok tt.
Proof.
  intros Hw. revert w.
  induction lines as [| line lines IH]; intros w; [reflexivity |].
  cbn [write_lines].
  rewrite (bind_ok _ _ w tt) by (rewrite call_outcome; apply Hw).
  cbn [outcome]. apply IH.
Qed.

(** The lines the serializer writes are the lines of the rows. *)
Lemma batch_lines_rows (dataframes : list DataFrame) (mode : string) :
  batch_lines E dataframes mode = row_lines (float_repr E) mode dataframes.
Proof.
  unfold batch_lines, row_lines, batch_records.
  induction dataframes as [| df dfs IH]; [reflexivity |].
  cbn [flat_map List.concat]. rewrite !map_app, IH. f_equal.
  rewrite map_map. reflexivity.
Qed.

(** A serialization whose clock and file answer returns the path of the
    file, every row written to it. *)
Lemma responses_to_json_answered (dataframes : list DataFrame)
    (label mode : string) (w : W) (now : datetime) (path : string) :
  snd (utcnow E w) = Ok now ->
  path = path_join (gettempdir E) (batch_filename label mode now) ->
  snd (file_open E path (fst (utcnow E w))) = Ok tt ->
  (forall line w', snd (file_write E path line w') = Ok tt) ->
  (forall w', snd (file_close E path w') = Ok tt) ->
  outcome (responses_to_json E dataframes label mode w) = Ok path
  /\ log (responses_to_json E dataframes label mode w)
     = (ENow :: EOpen path
          :: map (EFileWrite path) (row_lines (float_repr E) mode dataframes)
          ++ [EFileClose path])%list.
Proof.
  intros Hnow Hpath Hopen Hwrite Hclose.
  assert (Hout : outcome (responses_to_json E dataframes label mode w) = Ok path).
  { unfold responses_to_json.
    destruct (utcnow E w) as [w1 r] eqn:Hu. cbn [fst snd] in Hnow, Hopen. subst r.
    rewrite (bind_ok _ _ w now)
      by (rewrite (call_run _ _ _ _ _ Hu); reflexivity).
    rewrite (call_run _ _ _ _ _ Hu). cbn [final log outcome]. cbv zeta.
    rewrite <- Hpath.
    destruct (file_open E path w1) as [w2 r] eqn:Ho. cbn [snd] in Hopen. subst r.
    rewrite (bind_ok _ _ w1 tt)
      by (rewrite (call_run _ _ _ _ _ Ho); reflexivity).
    rewrite (call_run _ _ _ _ _ Ho). cbn [final log outcome].
    rewrite (bind_ok _ _ w2 tt); [reflexivity |].
    unfold try_finally. cbn [outcome].
    rewrite call_outcome, Hclose. apply write_lines_answered. exact Hwrite. }
  split; [exact Hout |].
  destruct (responses_to_json_ok E dataframes label mode w path Hout)
    as [now' [_ [_ Hlog]]].
  rewrite Hlog, batch_lines_rows. reflexivity.
Qed.

(** A pass whose collaborators answer, up to the serialization: the three
    requests, the clock, the file opened, one line written for every row
    of the tables of the fetch, the file closed. *)
Lemma write_batch_answered (mode : string) (loc : location) (w : W)
    (box : bbox) (cells responses : list response)
    (dataframes : list DataFrame) (now : datetime) (path : string) :
  pass_answered E mode loc w box cells responses now path ->
  parse_responses responses (label_of loc) = Ok dataframes ->
  Forall (fun df => df <> []) dataframes ->
  outcome (write_batch E mode loc w) = Ok path
  /\ log (write_batch E mode loc w)
     = ([EGet nominatim_url (bbox_params loc);
         EWeatherApi forecast_url (grid_params box);
         EWeatherApi forecast_url
           (weather_params (map Latitude cells) (map Longitude cells) mode);
         ENow; EOpen path]
        ++ map (EFileWrite path) (row_lines (float_repr E) mode dataframes)
        ++ [EFileClose path])%list.
Proof.
  unfold pass_answered.
  intros [[answer [Hgeo Hbox]] [Hgrid [Hfetch [Hnow [Hpath [Hopen [Hwrite Hclose]]]]]]]
    Hparse Hrows.
  destruct (requests_get_json E nominatim_url (bbox_params loc) w)
    as [w1 r1] eqn:Eg.
  cbn [fst snd] in *. subst r1.
  destruct (weather_api E forecast_url (grid_params box) w1) as [w2 r2] eqn:Egr.
  cbn [fst snd] in *. subst r2.
  destruct (weather_api E forecast_url
              (weather_params (map Latitude cells) (map Longitude cells) mode) w2)
    as [w3 r3] eqn:Ef.
  cbn [fst snd] in *. subst r3.
  pose proof (write_batch_fetched mode loc w w1 w2 w3 answer box cells
                responses Eg Hbox Egr Ef) as Hwb.
  cbv zeta in Hwb.
  destruct (responses_to_json_answered dataframes (label_of loc) mode w3 now
              path Hnow Hpath Hopen Hwrite Hclose) as [Hout Hlog].
  assert (Hrest : (dfs <- lift (parse_responses responses (label_of loc)) ;;
                   lift (report_tables dfs) ;;;
                   responses_to_json E dfs (label_of loc) mode) w3
                  = responses_to_json E dataframes (label_of loc) mode w3).
  { rewrite (bind_ok _ _ w3 dataframes) by exact Hparse.
    cbn [lift final log outcome].
    rewrite (bind_ok _ _ w3 tt)
      by (cbn; apply report_tables_rows; exact Hrows).
    cbn [lift final log outcome app]. symmetry. apply out_eta. }
  rewrite Hrest in Hwb. rewrite Hwb. cbn [final log outcome].
  split; [exact Hout |]. rewrite Hlog. reflexivity.
Qed.

(** The whole pass: what follows the serialization begins after the file is
    closed; in a dry run it is the removal of the file. *)
Lemma ingest_location_answered (mode : string) (dry_run : bool)
    (conn : option connection) (loc : location) (w : W)
    (box : bbox) (cells responses : list response)
    (dataframes : list DataFrame) (now : datetime) (path : string) :
  pass_answered E mode loc w box cells responses now path ->
  parse_responses responses (label_of loc) = Ok dataframes ->
  Forall (fun df => df <> []) dataframes ->
  exists tail,
    log (ingest_location E mode dry_run conn loc w)
    = ([EGet nominatim_url (bbox_params loc);
        EWeatherApi forecast_url (grid_params box);
        EWeatherApi forecast_url
          (weather_params (map Latitude cells) (map Longitude cells) mode);
        ENow; EOpen path]
       ++ map (EFileWrite path) (row_lines (float_repr E) mode dataframes)
       ++ EFileClose path :: tail)%list
    /\ (dry_run = true -> tail = [ERemove path]).
Proof.
  intros Hans Hparse Hrows.
  destruct (write_batch_answered mode loc w box cells responses dataframes
              now path Hans Hparse Hrows) as [Hout Hlog].
  unfold ingest_location.
  rewrite (bind_ok _ _ w path Hout). cbn [log]. rewrite Hlog.
  eexists. split.
  - rewrite <- !app_assoc. cbn [app]. reflexivity.
  - intros ->. cbn [negb]. unfold bind at 1. cbn [ret outcome final log].
    rewrite call_log. reflexivity.
Qed.

(** C1: in a dry run, whatever the locations and whatever the outside
    world answers, no call reaches the warehouse: no connection is made, no
    cursor is opened and no statement (the stage's PUT, the COPY INTO) is
    executed.  When the run returns, it has, for each location in turn,
    opened a file, written it, closed it and then removed it.  And the
    batch is serialized, for every location the run comes to: when the
    passes before it have returned and the outside world answers its pass,
    the run makes the three requests, reads the clock, opens the file of
    the batch, writes one line for every row of the tables of the fetch
    (the JSON text of the record of the row), closes the file, and removes
    it. *)
Theorem dry_run_invariant (mode : string) (locations : option (list location))
    (w : W) :
  Forall (fun e => is_warehouse e = false) (log (ingest E mode locations true w))
  /\ (outcome (ingest E mode locations true w) = Ok tt ->
      file_cycles (List.length (configured locations))
        (filter is_file (log (ingest E mode locations true w))))
  /\ (forall done loc rest box cells responses dataframes now path,
        let before := for_each done (ingest_location E mode true None) w in
        configured locations = (done ++ loc :: rest)%list ->
        outcome before = Ok tt ->
        pass_answered E mode loc (final before) box cells responses now path ->
        parse_responses responses (label_of loc) = Ok dataframes ->
        Forall (fun df => df <> []) dataframes ->
        exists after,
          log (ingest E mode locations true w)
          = (log before
             ++ [EGet nominatim_url (bbox_params loc);
                 EWeatherApi forecast_url (grid_params box);
                 EWeatherApi forecast_url
                   (weather_params (map Latitude cells) (map Longitude cells)
                      mode);
                 ENow; EOpen path]
             ++ map (EFileWrite path) (row_lines (float_repr E) mode dataframes)
             ++ [EFileClose path; ERemove path] ++ after)%list).
Proof.
  destruct (ingest_dry_loop E mode locations w) as [Hlog Hout].
  rewrite Hlog, Hout. split; [| split].
  - apply emits_only_for_each. intros loc.
    apply ingest_location_dry_emits.
  - apply for_each_dry_cycles.
  - intros done loc rest box cells responses dataframes now path before
      Hcfg Hbefore Hans Hparse Hrows.
    rewrite Hcfg.
    rewrite (for_each_app_ok done (loc :: rest) _ w Hbefore).
    fold before. cbn [log for_each].
    destruct (bind_log_prefix (ingest_location E mode true None loc)
                (fun _ => for_each rest (ingest_location E mode true None))
                (final before)) as [after Hafter].
    rewrite Hafter.
    destruct (ingest_location_answered mode true None loc (final before) box
                cells responses dataframes now path Hans Hparse Hrows)
      as [tail [Hpass Htail]].
    rewrite Hpass, (Htail eq_refl).
    exists after. rewrite <- !app_assoc. reflexivity.
Qed.


End AnsweredPass.

(** * The properties on the scripted world *)

(** The scripted world answers every pass. *)
Lemma fair_answers (mode : string) (loc : location) (path : string) :
  path = path_join "/tmp" (batch_filename (label_of loc) mode noon) ->
  pass_answered (scripted fair) mode loc tt atlanta_box [two_hours] [two_hours]
    noon path.
Proof.
  intros Hpath. unfold pass_answered.
  split; [exists [atlanta_candidate]; split; reflexivity |].
  repeat split; try reflexivity. exact Hpath.
Qed.

(** A dry run over two locations in the world where everything answers:
    no call to the warehouse, two files opened, written, closed and
    removed, and the second pass, for the forest, with its two rows
    written. *)
Lemma dry_run_invariant_witness :
  let run := ingest (scripted fair) "history" (Some [atlanta; boone]) true tt in
  Forall (fun e => is_warehouse e = false) (log run)
  /\ file_cycles 2 (filter is_file (log run))
  /\ exists after,
       log run
       = (log (for_each [atlanta]
                 (ingest_location (scripted fair) "history" true None) tt)
          ++ [EGet nominatim_url (bbox_params boone);
              EWeatherApi forecast_url (grid_params atlanta_box);
              EWeatherApi forecast_url
                (weather_params [33.75%float] [(-84.375)%float] "history");
              ENow; EOpen boone_file]
          ++ map (EFileWrite boone_file)
               (row_lines table_repr "history"
                  [two_hours_table "Daniel Boone National Forest, USA"])
          ++ [EFileClose boone_file; ERemove boone_file] ++ after)%list.
Proof.
  intros run.
  destruct (dry_run_invariant (scripted fair) "history"
              (Some [atlanta; boone]) tt) as [Hquiet [Hfiles Hpass]].
  split; [exact Hquiet |].
  split; [apply Hfiles; vm_compute; reflexivity |].
  apply (Hpass [atlanta] boone [] atlanta_box [two_hours] [two_hours]
           [two_hours_table "Daniel Boone National Forest, USA"] noon
           boone_file).
  - reflexivity.
  - vm_compute. reflexivity.
  - apply fair_answers. reflexivity.
  - reflexivity.
  - constructor; [discriminate | constructor].
Defined.


(** The short response in the scripted world. *)
Lemma misaligned_response_witness :
  parse_responses [short_hour] (label_of atlanta) = Raise ValueError
  /\ outcome (ingest_location (scripted misaligned) "history" true None
                atlanta tt) = Raise ValueError
  /\ log (ingest_location (scripted misaligned) "history" true None atlanta tt)
     = [EGet nominatim_url (bbox_params atlanta);
        EWeatherApi forecast_url
          (grid_params {| south_lat := "33.6478079"; north_lat := "33.8868859";
                          west_lon := "-84.551068"; east_lon := "-84.28956" |});
        EWeatherApi forecast_url
          (weather_params [33.75%float] [(-84.375)%float] "history")].
Proof.
  apply (misaligned_response (scripted misaligned) "history" true None atlanta
           tt [atlanta_candidate]
           {| south_lat := "33.6478079"; north_lat := "33.8868859";
              west_lon := "-84.551068"; east_lon := "-84.28956" |}
           [short_hour] [short_hour]);
    try reflexivity.
  apply Exists_cons_hd. reflexivity.
Defined.

(** C4, as the specification words it, fails: the exception of the short
    response is a [ValueError], and the program has no
    [NormalizationError]. *)
Lemma value_error_not_normalization_error :
  parse_responses [short_hour] "Atlanta, Georgia" = Raise ValueError
  /\ outcome (ingest (scripted misaligned) "history" (Some [atlanta]) true tt)
     = Raise ValueError
  /\ ValueError <> NormalizationError.
Proof.
  repeat split; try reflexivity. discriminate.
Qed.

(** The geocoder without a candidate in the scripted world. *)
Lemma unresolved_location_witness :
  outcome (get_bbox (scripted nowhere) atlanta tt) = Raise IndexError
  /\ outcome (ingest_location (scripted nowhere) "history" false
                (Some (Connection 1)) atlanta tt) = Raise IndexError
  /\ log (ingest_location (scripted nowhere) "history" false
            (Some (Connection 1)) atlanta tt)
     = [EGet nominatim_url (bbox_params atlanta)].
Proof.
  apply (unresolved_location (scripted nowhere) "history" false
           (Some (Connection 1)) atlanta tt [] IndexError); reflexivity.
Defined.

(** C5, as the specification words it, fails: without a candidate the
    resolution raises [IndexError], without the bounding-box field
    [KeyError], and the program has no [ResolutionError]. *)
Lemma index_error_not_resolution_error :
  outcome (get_bbox (scripted nowhere) atlanta tt) = Raise IndexError
  /\ outcome (get_bbox (scripted boxless) atlanta tt) = Raise KeyError
  /\ IndexError <> ResolutionError
  /\ KeyError <> ResolutionError.
Proof.
  repeat split; try reflexivity; discriminate.
Qed.

(** The stage statement fails on the first of two locations: the run ends
    with that exception, the second location is not visited and no call
    removes the file. *)
Lemma batch_file_removal_witness :
  let body :=
    ingest_location (scripted stage_down) "history" false (Some (Connection 1)) in
  outcome (for_each [atlanta; boone] body tt) = Raise (Exn "ProgrammingError")
  /\ Forall (fun ev => is_remove ev = false)
       (log (for_each [atlanta; boone] body tt)).
Proof.
  intros body.
  pose proof (batch_file_removal (scripted stage_down) "history" false
                (Some (Connection 1)) [] atlanta [boone] tt
                "/tmp/Atlanta_Georgia_history_20240501_120000.json"
                eq_refl eq_refl) as H.
  cbv zeta in H.
  change (outcome
            (load_phase (scripted stage_down) false (Some (Connection 1))
               "/tmp/Atlanta_Georgia_history_20240501_120000.json"
               (final (write_batch (scripted stage_down) "history" atlanta
                         (final (for_each [] body tt))))))
    with (@Raise unit (Exn "ProgrammingError")) in H.
  cbv iota in H. destruct H as [Hlog [Hout Hkept]].
  split; [exact Hout |].
  change ([] ++ [atlanta; boone])%list with [atlanta; boone] in Hlog.
  unfold body. rewrite Hlog. exact Hkept.
Defined.

(** The batch of the scripted world, written and read back. *)
Lemma serialization_round_trip_witness :
  let table :=
    [ {| timestamp := 1714521600; location_label := "Atlanta, Georgia";
         latitude := 33.75; longitude := (-84.375);
         temperature_2m := 72.5; is_day := 1;
         precipitation_probability := 0; precipitation := 0 |};
      {| timestamp := 1714525200; location_label := "Atlanta, Georgia";
         latitude := 33.75; longitude := (-84.375);
         temperature_2m := 72.5; is_day := 0;
         precipitation_probability := 0; precipitation := 0 |} ] in
  let path := "/tmp/Atlanta_Georgia_forecast_20240501_120000.json" in
  read_ndjson table_parse
    (written path
       (log (responses_to_json (scripted fair) [table] "Atlanta, Georgia"
               "forecast" tt)))
  = Some (flat_map (map (record_of_row "forecast")) [table])
  /\ Forall (fun record => dict_get record "mode" = Some (JStr "forecast"))
       (flat_map (map (record_of_row "forecast")) [table]).
Proof.
  intros table path.
  destruct (serialization_round_trip (scripted fair) table_parse [table]
              "Atlanta, Georgia" "forecast" tt path) as [Hread [Hmode _]].
  - reflexivity.
  - unfold batch_codec_ok, table, row_floats, codec_ok.
    repeat (apply Forall_cons; [| try apply Forall_nil]);
      try (split; vm_compute; reflexivity).
  - split; [exact Hread | exact Hmode].
Defined.

(** Two runs for New York, one second apart. *)
Lemma batch_filename_witness :
  batch_filename "New York, New York" "history" noon
  = "New_York_New_York_history_20240501_120000.json"
  /\ valid_datetime noon
  /\ valid_datetime noon_and_a_second
  /\ (batch_filename "New York, New York" "history" noon_and_a_second
      = batch_filename "New York, New York" "history" noon -> False).
Proof.
  assert (V1 : valid_datetime noon) by (unfold valid_datetime; simpl; lia).
  assert (V2 : valid_datetime noon_and_a_second)
    by (unfold valid_datetime; simpl; lia).
  split; [reflexivity |]. split; [exact V1 |]. split; [exact V2 |].
  intros Hsame.
  destruct (batch_filename_spec "New York, New York" "history" noon)
    as [_ [_ [_ [_ Hdistinct]]]].
  pose proof (Hdistinct "New York, New York" "history" noon_and_a_second
                V1 V2 Hsame) as Hsec.
  discriminate Hsec.
Defined.

(** C9, as the specification words it, fails: the spaces of the label are
    not taken out of the name, each becomes an underscore. *)
Lemma spaces_become_underscores :
  safe_label "New York, New York" = "New_York_New_York"
  /\ strip_spaces_commas "New York, New York" = "NewYorkNewYork"
  /\ batch_filename "New York, New York" "history" noon
     = "New_York_New_York_history_20240501_120000.json"
  /\ safe_label "New York, New York"
     <> strip_spaces_commas "New York, New York".
Proof.
  repeat split; try reflexivity. discriminate.
Qed.


(** * Further properties of the code *)

(** ** Resolution of a location *)

Section Resolution.
Context {W : Type} (E : Env W).

(** X1: when the first candidate of the geocoder's answer has a bounding
    box of four entries or more, [get_bbox] returns the first as the south
    latitude, the second as the north latitude, the third as the west
    longitude and the fourth as the east longitude; it looks at no other
    candidate and makes one request, limited to one result, by city and
    state for a tuple and by free text for a string. *)
Theorem get_bbox_resolves (loc : location) (w : W) (c : candidate)
    (others : list candidate) (s n we e : string) (more : list string) :
  snd (requests_get_json E nominatim_url (bbox_params loc) w) = Ok (c :: others) ->
  boundingbox c = Some (s :: n :: we :: e :: more) ->
  outcome (get_bbox E loc w)
  = Ok {| south_lat := s; north_lat := n; west_lon := we; east_lon := e |}
  /\ log (get_bbox E loc w) = [EGet nominatim_url (bbox_params loc)]
  /\ dict_get (bbox_params loc) "limit" = Some (PInt 1)
  /\ dict_get (bbox_params loc) "format" = Some (PStr "json")
  /\ match loc with
     | CityState city state =>
         dict_get (bbox_params loc) "city" = Some (PStr city)
         /\ dict_get (bbox_params loc) "state" = Some (PStr state)
         /\ dict_get (bbox_params loc) "q" = None
     | FreeForm q =>
         dict_get (bbox_params loc) "q" = Some (PStr q)
         /\ dict_get (bbox_params loc) "city" = None
         /\ dict_get (bbox_params loc) "state" = None
     end.
Proof.
  intros Hanswer Hbox.
  destruct (requests_get_json E nominatim_url (bbox_params loc) w)
    as [w1 r] eqn:Hg.
  simpl in Hanswer. subst r.
  rewrite (get_bbox_run E loc w w1 (c :: others) Hg). cbn [outcome log].
  unfold bbox_of_json. cbn [py_index nth_error rbind].
  rewrite Hbox. cbn.
  destruct loc; repeat split; reflexivity.
Qed.

(** X2: a first candidate whose bounding box has fewer than four entries
    makes [get_bbox] raise [IndexError], after the one request. *)
Theorem get_bbox_short_box (loc : location) (w : W) (c : candidate)
    (others : list candidate) (bb : list string) :
  snd (requests_get_json E nominatim_url (bbox_params loc) w) = Ok (c :: others) ->
  boundingbox c = Some bb ->
  (List.length bb < 4)%nat ->
  outcome (get_bbox E loc w) = Raise IndexError
  /\ log (get_bbox E loc w) = [EGet nominatim_url (bbox_params loc)].
Proof.
  intros Hanswer Hbox Hshort.
  destruct (requests_get_json E nominatim_url (bbox_params loc) w)
    as [w1 r] eqn:Hg.
  simpl in Hanswer. subst r.
  rewrite (get_bbox_run E loc w w1 (c :: others) Hg). cbn [outcome log].
  split; [| reflexivity].
  unfold bbox_of_json. cbn [py_index nth_error rbind].
  rewrite Hbox. cbn [py_key rbind].
  destruct bb as [| b0 [| b1 [| b2 [| b3 bb]]]]; try reflexivity.
  simpl in Hshort. lia.
Qed.

End Resolution.

Lemma get_bbox_resolves_witness :
  outcome (get_bbox (scripted fair) atlanta tt)
  = Ok {| south_lat := "33.6478079"; north_lat := "33.8868859";
          west_lon := "-84.551068"; east_lon := "-84.28956" |}
  /\ dict_get (bbox_params atlanta) "city" = Some (PStr "Atlanta").
Proof.
  destruct (get_bbox_resolves (scripted fair) atlanta tt atlanta_candidate []
              "33.6478079" "33.8868859" "-84.551068" "-84.28956" []
              eq_refl eq_refl) as [Hout [_ [_ [_ [Hcity _]]]]].
  split; [exact Hout | exact Hcity].
Defined.

Lemma get_bbox_short_box_witness :
  outcome (get_bbox (scripted cramped) atlanta tt) = Raise IndexError.
Proof.
  refine (proj1 (get_bbox_short_box (scripted cramped) atlanta tt
                   {| boundingbox := Some ["33.6"; "33.9"; "-84.5"] |} []
                   ["33.6"; "33.9"; "-84.5"] eq_refl eq_refl _)).
  simpl. lia.
Defined.

(** ** The grid of a box *)

Section Grid.
Context {W : Type} (E : Env W).

(** X3: [get_grid_points] makes one request, for the box written south,
    west, north, east and no forecast hour.  When the provider answers, it
    returns two lists as long as the answer, the latitude and the longitude
    of the i-th grid point at index i; an answer without grid points gives
    two empty lists and no exception.  When the provider raises, so does
    the function. *)
Theorem get_grid_points_pairs (box : bbox) (w : W) :
  let p := grid_params box in
  log (get_grid_points E box w) = [EWeatherApi forecast_url p]
  /\ dict_get p "bounding_box"
     = Some (PStr (south_lat box ++ "," ++ west_lon box ++ ","
                   ++ north_lat box ++ "," ++ east_lon box))
  /\ dict_get p "forecast_hours" = Some (PInt 0)
  /\ match snd (weather_api E forecast_url p w) with
     | Ok cells =>
         exists latitudes longitudes,
           outcome (get_grid_points E box w) = Ok (latitudes, longitudes)
           /\ List.length latitudes = List.length cells
           /\ List.length longitudes = List.length cells
           /\ (forall i cell,
                 nth_error cells i = Some cell ->
                 nth_error latitudes i = Some (Latitude cell)
                 /\ nth_error longitudes i = Some (Longitude cell))
           /\ (cells = [] -> latitudes = [] /\ longitudes = [])
     | Raise e => outcome (get_grid_points E box w) = Raise e
     end.
Proof.
  intros p. unfold get_grid_points. fold p.
  destruct (weather_api E forecast_url p w) as [w1 [cells | e]] eqn:Hw.
  - unfold bind. rewrite (call_run _ _ _ _ _ Hw). cbn.
    repeat split.
    exists (map Latitude cells), (map Longitude cells).
    rewrite !length_map. repeat split.
    + rewrite nth_error_map, H. reflexivity.
    + rewrite nth_error_map, H. reflexivity.
    + subst cells. reflexivity.
    + subst cells. reflexivity.
  - unfold bind. rewrite (call_run _ _ _ _ _ Hw). cbn.
    repeat split.
Qed.

End Grid.

(** ** The tables of a fetch *)

Lemma zip_rows_stamped (label : string) (lat lon : float) (ts : list Z)
    (a0 a1 a2 a3 : list float) :
  Forall (fun r => location_label r = label
                   /\ latitude r = lat /\ longitude r = lon)
    (zip_rows label lat lon ts a0 a1 a2 a3).
Proof.
  revert a0 a1 a2 a3.
  induction ts as [| t ts IH]; intros a0 a1 a2 a3; [constructor |].
  destruct a0, a1, a2, a3; try constructor.
  - simpl. repeat split.
  - apply IH.
Qed.

Lemma zip_rows_timestamps (label : string) (lat lon : float) (ts : list Z)
    (a0 a1 a2 a3 : list float) :
  same_length ts a0 a1 a2 a3 = true ->
  map timestamp (zip_rows label lat lon ts a0 a1 a2 a3) = ts.
Proof.
  revert a0 a1 a2 a3.
  induction ts as [| t ts IH]; intros a0 a1 a2 a3 H; [reflexivity |].
  apply same_length_inv in H. destruct H as [H0 [H1 [H2 H3]]].
  destruct a0, a1, a2, a3; try discriminate.
  simpl in *. f_equal. apply IH.
  unfold same_length. repeat rewrite andb_true_iff.
  repeat split; apply Nat.eqb_eq; lia.
Qed.

(** X4: when every response of a fetch is aligned, [parse_responses]
    returns one table per response, in the order of the responses; the
    timestamps of the rows of a table are the index of its response, in
    order, and every row carries the label given and the latitude and the
    longitude of that response.  No response gives no table. *)
Theorem parse_responses_tables (responses : list response) (label : string) :
  forallb aligned responses = true ->
  exists dataframes,
    parse_responses responses label = Ok dataframes
    /\ Forall2
         (fun r df =>
            map timestamp df = timestamps r
            /\ Forall (fun row => location_label row = label
                                  /\ latitude row = Latitude r
                                  /\ longitude row = Longitude r) df)
         responses dataframes.
Proof.
  induction responses as [| r rs IH]; simpl; intros Hall.
  - exists []. split; [reflexivity | constructor].
  - apply andb_true_iff in Hall. destruct Hall as [Hr Hrs].
    destruct (IH Hrs) as [dfs [Hparse Hdfs]].
    rewrite (parse_response_aligned r label Hr), Hparse. simpl.
    eexists. split; [reflexivity |].
    constructor; [| exact Hdfs]. split.
    + apply zip_rows_timestamps. exact Hr.
    + apply zip_rows_stamped.
Qed.

Lemma parse_responses_tables_witness :
  exists dataframes,
    parse_responses [two_hours; three_hours] "Atlanta, Georgia" = Ok dataframes
    /\ map (map timestamp) dataframes
       = [[1714521600; 1714525200]; [1714528800; 1714532400; 1714536000]].
Proof.
  destruct (parse_responses_tables [two_hours; three_hours] "Atlanta, Georgia"
              eq_refl) as [dfs [Hparse Hdfs]].
  exists dfs. split; [exact Hparse |].
  inversion Hdfs as [| r1 df1 rs1 dfs1 [Ht1 _] Hrest]; subst.
  inversion Hrest as [| r2 df2 rs2 dfs2 [Ht2 _] Hnil]; subst.
  inversion Hnil; subst.
  simpl. rewrite Ht1, Ht2. reflexivity.
Defined.

(** The index of a response as a progression. *)
Lemma timestamps_steps (r : response) :
  let s := Time (Hourly r) in
  let e := TimeEnd (Hourly r) in
  let d := Z.pos (Interval (Hourly r)) in
  exists n,
    timestamps r = steps s d n
    /\ forall k, (k < n)%nat <-> s + Z.of_nat k * d < e.
Proof.
  intros s e d. unfold timestamps. fold s e.
  apply date_range_half_open.
Qed.

(** X5: a response whose window is a whole number [n] of intervals, one at
    least, has an index of exactly [n] instants, the start and the [n - 1]
    steps after it; with aligned arrays its table has [n] rows (24 for the
    day of hours of the history mode, 1 for the hour of the forecast
    mode). *)
Theorem whole_window_rows (r : response) (label : string) (n : nat) :
  (0 < n)%nat ->
  TimeEnd (Hourly r)
  = Time (Hourly r) + Z.of_nat n * Z.pos (Interval (Hourly r)) ->
  timestamps r = steps (Time (Hourly r)) (Z.pos (Interval (Hourly r))) n
  /\ (aligned r = true ->
      exists rows,
        parse_response r label = Ok rows /\ List.length rows = n).
Proof.
  intros Hn Hend.
  destruct (timestamps_steps r) as [m [Hts Hopen]].
  assert (Hm : m = n).
  { destruct (Nat.lt_trichotomy m n) as [Hlt | [Heq | Hgt]]; [| exact Heq |].
    - assert (H : (m < m)%nat) by (apply Hopen; nia). lia.
    - assert (H : Time (Hourly r) + Z.of_nat n * Z.pos (Interval (Hourly r))
                  < TimeEnd (Hourly r)) by (apply Hopen; lia).
      lia. }
  subst m. split; [exact Hts |].
  intros Hal. rewrite (parse_response_aligned r label Hal).
  eexists. split; [reflexivity |].
  rewrite zip_rows_length by exact Hal.
  rewrite Hts. apply steps_length.
Qed.

Lemma whole_window_rows_witness :
  exists rows,
    parse_response one_day "Atlanta, Georgia" = Ok rows
    /\ List.length rows = 24%nat.
Proof.
  destruct (whole_window_rows one_day "Atlanta, Georgia" 24 ltac:(lia) eq_refl)
    as [_ Hrows].
  apply Hrows. reflexivity.
Defined.

(** X6: in the index of a response, and so down the rows of its table, the
    instants go up by the interval from one index to the next; when the
    start and the end of the window differ every instant lies from the
    start on and before the end. *)
Theorem timestamps_increasing (r : response) (i j : nat) (ti tj : Z) :
  (i <= j)%nat ->
  nth_error (timestamps r) i = Some ti ->
  nth_error (timestamps r) j = Some tj ->
  tj - ti = Z.of_nat (j - i) * Z.pos (Interval (Hourly r))
  /\ (Time (Hourly r) <> TimeEnd (Hourly r) ->
      Time (Hourly r) <= ti /\ tj < TimeEnd (Hourly r)).
Proof.
  intros Hij Hi Hj.
  destruct (timestamps_steps r) as [n [Hts Hopen]].
  rewrite Hts in Hi, Hj.
  assert (Hin : (i < n)%nat).
  { rewrite <- (steps_length (Time (Hourly r)) (Z.pos (Interval (Hourly r))) n).
    apply nth_error_Some. congruence. }
  assert (Hjn : (j < n)%nat).
  { rewrite <- (steps_length (Time (Hourly r)) (Z.pos (Interval (Hourly r))) n).
    apply nth_error_Some. congruence. }
  rewrite steps_nth_error in Hi, Hj by assumption.
  injection Hi as <-. injection Hj as <-.
  split; [nia |].
  intros _. split; [nia |].
  apply Hopen. exact Hjn.
Qed.

Lemma timestamps_increasing_witness :
  timestamps two_hours = [1714521600; 1714525200]
  /\ 1714525200 - 1714521600 = Z.of_nat (1 - 0) * Z.pos (Interval (Hourly two_hours))
  /\ Time (Hourly two_hours) <= 1714521600
  /\ 1714525200 < TimeEnd (Hourly two_hours).
Proof.
  destruct (timestamps_increasing two_hours 0 1 1714521600 1714525200
              ltac:(lia) eq_refl eq_refl) as [Hstep Hrange].
  split; [reflexivity |]. split; [exact Hstep |]. apply Hrange. discriminate.
Defined.

(** ** Passes with nothing to write *)

Lemma report_tables_empty (dataframes : list DataFrame) :
  Exists (fun df => df = []) dataframes ->
  report_tables dataframes = Raise IndexError.
Proof.
  induction 1 as [df dfs Hdf | df dfs _ IH]; simpl.
  - subst df. reflexivity.
  - destruct df as [| row df]; [reflexivity |]. simpl. exact IH.
Qed.

Section AfterFetch.
Context {W : Type} (E : Env W).

(** X7: when the fetch answers with aligned responses of which one has an
    empty index (its window ends before it starts and its arrays are
    empty), the pass raises [IndexError] where the progress report reads
    the first latitude of that table: after the three requests, before any
    file is opened. *)
Theorem empty_table_stops_pass (mode : string) (dry_run : bool)
    (conn : option connection) (loc : location) (w : W)
    (answer : list candidate) (box : bbox) (cells responses : list response) :
  let geo := requests_get_json E nominatim_url (bbox_params loc) w in
  let grid := weather_api E forecast_url (grid_params box) (fst geo) in
  let hourly_params :=
    weather_params (map Latitude cells) (map Longitude cells) mode in
  let fetch := weather_api E forecast_url hourly_params (fst grid) in
  snd geo = Ok answer ->
  bbox_of_json answer = Ok box ->
  snd grid = Ok cells ->
  snd fetch = Ok responses ->
  forallb aligned responses = true ->
  Exists (fun r => timestamps r = []) responses ->
  outcome (ingest_location E mode dry_run conn loc w) = Raise IndexError
  /\ log (ingest_location E mode dry_run conn loc w)
     = [EGet nominatim_url (bbox_params loc);
        EWeatherApi forecast_url (grid_params box);
        EWeatherApi forecast_url hourly_params].
Proof.
  intros geo grid hourly_params fetch Hgeo Hbox Hgrid Hfetch Hal Hex.
  destruct geo as [w1 r1] eqn:Eg. simpl in Hgeo, grid. subst r1.
  destruct grid as [w2 r2] eqn:Egr. simpl in Hgrid, fetch. subst r2.
  destruct fetch as [w3 r3] eqn:Ef. simpl in Hfetch. subst r3.
  pose proof (write_batch_fetched E mode loc w w1 w2 w3 answer box cells
                responses Eg Hbox Egr Ef) as Hwb.
  cbv zeta in Hwb.
  destruct (parse_responses_tables responses (label_of loc) Hal)
    as [dfs [Hparse Hdfs]].
  assert (Hempty : Exists (fun df => df = []) dfs).
  { clear - Hdfs Hex. induction Hdfs as [| r df rs dfs [Hts _] _ IH].
    - inversion Hex.
    - inversion Hex as [? ? Hr | ? ? Hrs]; subst.
      + left. rewrite Hr in Hts. destruct df; [reflexivity | discriminate].
      + right. apply IH. exact Hrs. }
  assert (Hrest : (dataframes <- lift (parse_responses responses (label_of loc)) ;;
                   lift (report_tables dataframes) ;;;
                   responses_to_json E dataframes (label_of loc) mode) w3
                  = {| final := w3; log := []; outcome := Raise IndexError |}).
  { rewrite (bind_ok _ _ w3 dfs) by exact Hparse.
    cbn [lift final log outcome].
    rewrite (bind_raise _ _ w3 IndexError)
      by (cbn; apply report_tables_empty; exact Hempty).
    reflexivity. }
  rewrite Hrest in Hwb. cbn [final log outcome] in Hwb.
  unfold ingest_location.
  rewrite (bind_raise _ _ w IndexError) by (rewrite Hwb; reflexivity).
  rewrite Hwb. split; reflexivity.
Qed.

(** X8: when the fetch answers with no response at all (a box without grid
    points), a pass whose serialization returns has opened the file and
    closed it without a write; a pass that loads then goes on to the
    cursor and stages that empty file. *)
Theorem empty_fetch_empty_file (mode : string) (loc : location) (w : W)
    (answer : list candidate) (box : bbox) (cells : list response)
    (path : string) (c : connection) :
  let geo := requests_get_json E nominatim_url (bbox_params loc) w in
  let grid := weather_api E forecast_url (grid_params box) (fst geo) in
  let hourly_params :=
    weather_params (map Latitude cells) (map Longitude cells) mode in
  let fetch := weather_api E forecast_url hourly_params (fst grid) in
  snd geo = Ok answer ->
  bbox_of_json answer = Ok box ->
  snd grid = Ok cells ->
  snd fetch = Ok [] ->
  outcome (write_batch E mode loc w) = Ok path ->
  log (write_batch E mode loc w)
  = [EGet nominatim_url (bbox_params loc);
     EWeatherApi forecast_url (grid_params box);
     EWeatherApi forecast_url hourly_params;
     ENow; EOpen path; EFileClose path]
  /\ exists tail,
       log (ingest_location E mode false (Some c) loc w)
       = (log (write_batch E mode loc w) ++ ECursor c :: tail)%list.
Proof.
  intros geo grid hourly_params fetch Hgeo Hbox Hgrid Hfetch Hok.
  destruct geo as [w1 r1] eqn:Eg. simpl in Hgeo, grid. subst r1.
  destruct grid as [w2 r2] eqn:Egr. simpl in Hgrid, fetch. subst r2.
  destruct fetch as [w3 r3] eqn:Ef. simpl in Hfetch. subst r3.
  pose proof (write_batch_fetched E mode loc w w1 w2 w3 answer box cells []
                Eg Hbox Egr Ef) as Hwb.
  cbv zeta in Hwb.
  assert (Hrest : (dataframes <- lift (parse_responses [] (label_of loc)) ;;
                   lift (report_tables dataframes) ;;;
                   responses_to_json E dataframes (label_of loc) mode) w3
                  = responses_to_json E [] (label_of loc) mode w3).
  { unfold bind, lift. cbn. apply eq_sym, out_eta. }
  rewrite Hrest in Hwb.
  assert (Hjson : outcome (responses_to_json E [] (label_of loc) mode w3) = Ok path)
    by (rewrite Hwb in Hok; exact Hok).
  destruct (responses_to_json_ok E [] (label_of loc) mode w3 path Hjson)
    as [now [_ [_ Hlog]]].
  assert (Hlogwb : log (write_batch E mode loc w)
                   = [EGet nominatim_url (bbox_params loc);
                      EWeatherApi forecast_url (grid_params box);
                      EWeatherApi forecast_url hourly_params;
                      ENow; EOpen path; EFileClose path]).
  { rewrite Hwb. cbn [log]. rewrite Hlog. reflexivity. }
  split; [exact Hlogwb |].
  unfold ingest_location.
  rewrite (bind_ok _ _ w path Hok). cbn [final log outcome negb].
  set (w4 := final (write_batch E mode loc w)).
  destruct (bind_log_prefix (upload_to_snowflake E (Some c) path)
              (fun _ => call (ERemove path) (os_remove E path)) w4)
    as [tail1 Htail1].
  rewrite Htail1. unfold upload_to_snowflake.
  destruct (bind_log_prefix (call (ECursor c) (connection_cursor E c))
              (fun cur =>
                 try_finally
                   (call (EExecute cur (put_statement path))
                         (cursor_execute E cur (put_statement path)) ;;;
                    call (EExecute cur copy_statement)
                         (cursor_execute E cur copy_statement))
                   (call (ECursorClose cur) (cursor_close E cur))) w4)
    as [tail2 Htail2].
  rewrite Htail2, call_log.
  eexists. rewrite <- app_assoc. reflexivity.
Qed.

End AfterFetch.

Lemma empty_table_stops_pass_witness :
  outcome (ingest_location (scripted hollow) "history" true None atlanta tt)
  = Raise IndexError
  /\ log (ingest_location (scripted hollow) "history" true None atlanta tt)
     = [EGet nominatim_url (bbox_params atlanta);
        EWeatherApi forecast_url (grid_params atlanta_box);
        EWeatherApi forecast_url
          (weather_params [33.75%float] [(-84.375)%float] "history")].
Proof.
  apply (empty_table_stops_pass (scripted hollow) "history" true None atlanta
           tt [atlanta_candidate] atlanta_box [empty_window] [empty_window]);
    try reflexivity.
  apply Exists_cons_hd. reflexivity.
Defined.

Lemma empty_fetch_empty_file_witness :
  log (write_batch (scripted barren) "history" atlanta tt)
  = [EGet nominatim_url (bbox_params atlanta);
     EWeatherApi forecast_url (grid_params atlanta_box);
     EWeatherApi forecast_url (weather_params [] [] "history");
     ENow; EOpen atlanta_file; EFileClose atlanta_file]
  /\ exists tail,
       log (ingest_location (scripted barren) "history" false
              (Some (Connection 1)) atlanta tt)
       = (log (write_batch (scripted barren) "history" atlanta tt)
          ++ ECursor (Connection 1) :: tail)%list.
Proof.
  apply (empty_fetch_empty_file (scripted barren) "history" atlanta tt
           [atlanta_candidate] atlanta_box [] atlanta_file (Connection 1));
    reflexivity.
Defined.

(** ** The file of a batch *)

Lemma starts_with_slash_app (a b : string) :
  starts_with_slash (a ++ b)
  = match a with
    | EmptyString => starts_with_slash b
    | String _ _ => starts_with_slash a
    end.
Proof. destruct a; reflexivity. Qed.

Section BatchFileCalls.
Context {W : Type} (E : Env W).

(** The lines written are the first lines of the batch, in order, up to
    the first write that raises. *)
Lemma write_lines_prefix (path : string) (lines : list string) (w : W) :
  exists done,
    is_prefix done lines
    /\ log (write_lines E path lines w) = map (EFileWrite path) done
    /\ (outcome (write_lines E path lines w) = Ok tt -> done = lines).
Proof.
  revert w. induction lines as [| line lines IH]; intros w.
  - exists []. repeat split.
  - cbn [write_lines].
    destruct (file_write E path line w) as [w1 [[] | e]] eqn:Hw.
    + rewrite (bind_ok _ _ w tt)
        by (rewrite (call_run _ _ _ _ _ Hw); reflexivity).
      rewrite (call_run _ _ _ _ _ Hw). cbn [outcome final log].
      destruct (IH w1) as [done [Hpre [Hlog Hall]]].
      exists (line :: done). repeat split.
      * exact Hpre.
      * rewrite Hlog. reflexivity.
      * intros Hok. rewrite (Hall Hok). reflexivity.
    + rewrite (bind_raise _ _ w e)
        by (rewrite (call_run _ _ _ _ _ Hw); reflexivity).
      rewrite (call_run _ _ _ _ _ Hw). cbn [outcome final log].
      exists [line]. split; [split; [reflexivity | destruct lines; exact I] |].
      split; [reflexivity | discriminate].
Qed.

(** X9: [responses_to_json] asks the clock, then opens the file.  When the
    clock or the open raises, nothing is written and nothing is closed.
    Once the file is open, the lines written are the first lines of the
    batch, in order, and the next call closes that file: also when a write
    has raised. *)
Theorem responses_to_json_closes (dataframes : list DataFrame)
    (label mode : string) (w : W) :
  match snd (utcnow E w) with
  | Raise e =>
      log (responses_to_json E dataframes label mode w) = [ENow]
      /\ outcome (responses_to_json E dataframes label mode w) = Raise e
  | Ok now =>
      let path := path_join (gettempdir E) (batch_filename label mode now) in
      match snd (file_open E path (fst (utcnow E w))) with
      | Raise e =>
          log (responses_to_json E dataframes label mode w)
          = [ENow; EOpen path]
          /\ outcome (responses_to_json E dataframes label mode w) = Raise e
      | Ok _ =>
          exists done,
            is_prefix done (batch_lines E dataframes mode)
            /\ log (responses_to_json E dataframes label mode w)
               = (ENow :: EOpen path :: map (EFileWrite path) done
                  ++ [EFileClose path])%list
            /\ (outcome (responses_to_json E dataframes label mode w) = Ok path
                -> done = batch_lines E dataframes mode)
      end
  end.
Proof.
  unfold responses_to_json.
  destruct (utcnow E w) as [w1 [now | e]] eqn:Hnow; cbn [fst snd].
  - rewrite (bind_ok _ _ w now)
      by (rewrite (call_run _ _ _ _ _ Hnow); reflexivity).
    rewrite (call_run _ _ _ _ _ Hnow). cbn [final log outcome].
    set (path := path_join (gettempdir E) (batch_filename label mode now)).
    cbv zeta.
    destruct (file_open E path w1) as [w2 [[] | e]] eqn:Hopen; cbn [snd].
    + rewrite (bind_ok _ _ w1 tt)
        by (rewrite (call_run _ _ _ _ _ Hopen); reflexivity).
      rewrite (call_run _ _ _ _ _ Hopen). cbn [final log outcome].
      destruct (write_lines_prefix path (batch_lines E dataframes mode) w2)
        as [done [Hpre [Hlog Hall]]].
      exists done. split; [exact Hpre |].
      unfold bind, try_finally. cbn [final log outcome].
      rewrite call_log, Hlog.
      destruct (outcome (call (EFileClose path) (file_close E path)
                           (final (write_lines E path
                                     (batch_lines E dataframes mode) w2))))
        as [[] | e1] eqn:Hclose.
      * destruct (outcome (write_lines E path (batch_lines E dataframes mode) w2))
          as [[] | e2] eqn:Hwrite; cbn [final log outcome ret].
        -- split; [rewrite app_nil_r; reflexivity |].
           intros _. apply Hall. reflexivity.
        -- split; [reflexivity | discriminate].
      * cbn [final log outcome]. split; [reflexivity | discriminate].
    + rewrite (bind_raise _ _ w1 e)
        by (rewrite (call_run _ _ _ _ _ Hopen); reflexivity).
      rewrite (call_run _ _ _ _ _ Hopen). cbn [final log outcome].
      split; reflexivity.
  - rewrite (bind_raise _ _ w e)
      by (rewrite (call_run _ _ _ _ _ Hnow); reflexivity).
    rewrite (call_run _ _ _ _ _ Hnow). cbn [final log outcome].
    split; reflexivity.
Qed.

(** X10: the place of the file.  When the label, after its spaces and
    commas are replaced, begins with a slash, the path of the file is its
    name alone: the file is not put under the temporary directory.
    Otherwise the path is the temporary directory, a slash unless the
    directory is empty or ends with one, and the name. *)
Theorem batch_file_place (dataframes : list DataFrame) (label mode : string)
    (w : W) (path : string) :
  outcome (responses_to_json E dataframes label mode w) = Ok path ->
  exists now,
    snd (utcnow E w) = Ok now
    /\ In (EOpen path) (log (responses_to_json E dataframes label mode w))
    /\ path
       = if starts_with_slash (safe_label label)
         then batch_filename label mode now
         else if (String.eqb (gettempdir E) "" || ends_with_slash (gettempdir E))%bool
              then gettempdir E ++ batch_filename label mode now
              else gettempdir E ++ "/" ++ batch_filename label mode now.
Proof.
  intros Hok.
  destruct (responses_to_json_ok E dataframes label mode w path Hok)
    as [now [Hnow [Hpath Hlog]]].
  exists now. split; [exact Hnow |]. split.
  - rewrite Hlog. right. left. reflexivity.
  - rewrite Hpath. unfold path_join.
    unfold batch_filename at 1. rewrite starts_with_slash_app.
    destruct (safe_label label) as [| c s] eqn:Hlabel; reflexivity.
Qed.

End BatchFileCalls.

Lemma batch_file_place_witness :
  exists now,
    snd (utcnow (scripted fair) tt) = Ok now
    /\ In (EOpen "/srv/share_history_20240501_120000.json")
          (log (responses_to_json (scripted fair) [] "/srv/share" "history" tt))
    /\ "/srv/share_history_20240501_120000.json"
       = batch_filename "/srv/share" "history" now.
Proof.
  destruct (batch_file_place (scripted fair) [] "/srv/share" "history" tt
              "/srv/share_history_20240501_120000.json" eq_refl)
    as [now [Hnow [Hin Hpath]]].
  exists now. split; [exact Hnow |]. split; [exact Hin | exact Hpath].
Defined.

(** ** The load of a file *)

Section Load.
Context {W : Type} (E : Env W).

Lemma filter_load_writes (path : string) (lines : list string) :
  filter is_file_or_load (map (EFileWrite path) lines)
  = map (EFileWrite path) lines.
Proof.
  induction lines as [| line lines IH]; simpl; [| rewrite IH]; reflexivity.
Qed.

(** The calls of a load that returns. *)
Lemma upload_to_snowflake_ok (c : connection) (path : string) (w : W) :
  outcome (upload_to_snowflake E (Some c) path w) = Ok tt ->
  exists cur,
    log (upload_to_snowflake E (Some c) path w)
    = [ECursor c; EExecute cur (put_statement path);
       EExecute cur copy_statement; ECursorClose cur].
Proof.
  unfold upload_to_snowflake. intros H.
  apply bind_ok_inv in H. destruct H as [cur [Hcur H]].
  rewrite (bind_ok _ _ w cur Hcur). cbn [log].
  apply try_finally_ok_inv in H. destruct H as [Hbody _].
  apply bind_ok_inv in Hbody. destruct Hbody as [[] [Hput _]].
  exists cur. unfold try_finally. cbn [log].
  rewrite (bind_ok _ _ _ tt Hput). cbn [log].
  rewrite !call_log. reflexivity.
Qed.

(** X11: the statements of a load.  When the cursor cannot be had, the load
    stops there and closes nothing.  When the cursor is had, the stage
    statement is executed on it; the copy statement is executed after it
    only when it returned; the last call closes that cursor in either case.
    The load raises what the first failing statement raised, unless the
    closing of the cursor raises, which then replaces it. *)
Theorem upload_protocol (c : connection) (path : string) (w : W) :
  let run := upload_to_snowflake E (Some c) path w in
  match connection_cursor E c w with
  | (_, Raise e) => log run = [ECursor c] /\ outcome run = Raise e
  | (w1, Ok cur) =>
      match cursor_execute E cur (put_statement path) w1 with
      | (w2, Raise e) =>
          log run
          = [ECursor c; EExecute cur (put_statement path); ECursorClose cur]
          /\ outcome run
             = match snd (cursor_close E cur w2) with
               | Ok _ => Raise e
               | Raise e' => Raise e'
               end
      | (w2, Ok _) =>
          let copied := cursor_execute E cur copy_statement w2 in
          log run
          = [ECursor c; EExecute cur (put_statement path);
             EExecute cur copy_statement; ECursorClose cur]
          /\ outcome run
             = match snd (cursor_close E cur (fst copied)) with
               | Ok _ => snd copied
               | Raise e' => Raise e'
               end
      end
  end.
Proof.
  intros run. unfold run, upload_to_snowflake.
  destruct (connection_cursor E c w) as [w1 [cur | e]] eqn:Hcur.
  - rewrite (bind_ok _ _ w cur)
      by (rewrite (call_run _ _ _ _ _ Hcur); reflexivity).
    rewrite (call_run _ _ _ _ _ Hcur). cbn [final log outcome].
    unfold try_finally. cbn [final log outcome].
    destruct (cursor_execute E cur (put_statement path) w1)
      as [w2 [[] | e]] eqn:Hput.
    + rewrite (bind_ok _ _ w1 tt)
        by (rewrite (call_run _ _ _ _ _ Hput); reflexivity).
      rewrite (call_run _ _ _ _ _ Hput). cbn [final log outcome].
      cbv zeta.
      destruct (cursor_execute E cur copy_statement w2) as [w3 r] eqn:Hcopy.
      rewrite (call_run _ _ _ _ _ Hcopy). cbn [final log outcome fst snd].
      rewrite call_log, call_outcome. split; reflexivity.
    + rewrite (bind_raise _ _ w1 e)
        by (rewrite (call_run _ _ _ _ _ Hput); reflexivity).
      rewrite (call_run _ _ _ _ _ Hput). cbn [final log outcome].
      rewrite call_log, call_outcome. split; reflexivity.
  - rewrite (bind_raise _ _ w e)
      by (rewrite (call_run _ _ _ _ _ Hcur); reflexivity).
    rewrite (call_run _ _ _ _ _ Hcur). cbn [final log outcome].
    split; reflexivity.
Qed.

(** A pass of a run that loads, when it returns. *)
Lemma ingest_location_load_cycle (mode : string) (c : connection)
    (loc : location) (w : W) :
  outcome (ingest_location E mode false (Some c) loc w) = Ok tt ->
  load_cycle
    (filter is_file_or_load
       (log (ingest_location E mode false (Some c) loc w))).
Proof.
  unfold ingest_location. simpl negb. cbv iota. intros H.
  apply bind_ok_inv in H. destruct H as [path [Hwb H]].
  rewrite (bind_ok _ _ w path Hwb). cbn [log].
  apply bind_ok_inv in H. destruct H as [[] [Hup _]].
  rewrite (bind_ok _ _ _ tt Hup). cbn [log].
  destruct (upload_to_snowflake_ok c path _ Hup) as [cur Hload].
  rewrite Hload, call_log.
  destruct (write_batch_ok E mode loc w path Hwb)
    as [box [grid [responses [dataframes [now [_ [_ Hlog]]]]]]].
  rewrite Hlog. rewrite !filter_app. simpl.
  rewrite filter_load_writes. rewrite <- app_assoc. simpl.
  apply (load_cycle_intro path (batch_lines E dataframes mode) c cur).
Qed.

Lemma for_each_load_cycles (mode : string) (c : connection)
    (locations : list location) (w : W) :
  outcome (for_each locations (ingest_location E mode false (Some c)) w) = Ok tt ->
  load_cycles (List.length locations)
    (filter is_file_or_load
       (log (for_each locations (ingest_location E mode false (Some c)) w))).
Proof.
  revert w. induction locations as [| loc locations IH]; intros w H.
  - simpl. constructor.
  - simpl in H |- *.
    apply bind_ok_inv in H. destruct H as [[] [Hloc Hrest]].
    rewrite (bind_ok _ _ w tt Hloc). cbn [log].
    rewrite filter_app.
    apply load_cycles_cons.
    + apply ingest_location_load_cycle. exact Hloc.
    + apply IH. exact Hrest.
Qed.

(** X12: a run that loads and returns has made the connection first and
    closed it last; in between, for each location in turn, it has opened a
    file, written it, closed it, taken a cursor, executed the stage
    statement of that file and then the copy statement on that cursor,
    closed the cursor, and removed the file. *)
Theorem loaded_run_cycles (mode : string) (locations : option (list location))
    (w : W) :
  outcome (ingest E mode locations false w) = Ok tt ->
  exists c between,
    log (ingest E mode locations false w)
    = (EConnect :: between ++ [EConnClose c])%list
    /\ load_cycles (List.length (configured locations))
         (filter is_file_or_load between).
Proof.
  intros H.
  destruct (snowflake_connect E w) as [w1 [c | e]] eqn:Hc.
  - destruct (ingest_connected E mode locations w w1 c Hc) as [Hlog Hout].
    cbv zeta in Hlog, Hout.
    exists c. eexists. split; [exact Hlog |].
    apply for_each_load_cycles.
    rewrite Hout in H.
    destruct (outcome (call (EConnClose c) (connection_close E c) _));
      [exact H | discriminate].
  - exfalso. revert H. unfold ingest. simpl negb. cbv iota.
    rewrite (bind_raise _ _ w e); [discriminate |].
    unfold get_snowflake_connection.
    rewrite (bind_raise _ _ w e)
      by (rewrite (call_run _ _ _ _ _ Hc); reflexivity).
    reflexivity.
Qed.

End Load.

Lemma loaded_run_cycles_witness :
  exists c between,
    log (ingest (scripted fair) "forecast" (Some [atlanta; boone]) false tt)
    = (EConnect :: between ++ [EConnClose c])%list
    /\ load_cycles 2 (filter is_file_or_load between).
Proof.
  apply (loaded_run_cycles (scripted fair) "forecast" (Some [atlanta; boone]) tt).
  vm_compute. reflexivity.
Defined.

(** ** The end of a run *)

Section RunEnd.
Context {W : Type} (E : Env W).

Lemma bind_first_call {A B} (m : M W A) (f : A -> M W B) (w : W) (ev : event) :
  (exists rest, log (m w) = ev :: rest) ->
  exists rest, log (bind m f w) = ev :: rest.
Proof.
  intros [rest H]. destruct (bind_log_prefix m f w) as [tail Ht].
  rewrite Ht, H. eexists. reflexivity.
Qed.

(** X13: in a run that loads, take the first pass that raises, the passes
    before it having returned.  The calls of the run are the connection,
    the calls of the passes up to that one, and the closing of the
    connection: the locations after it are not visited.  The run raises
    what the pass raised, unless the closing of the connection raises,
    which then replaces it. *)
Theorem failed_pass_ends_run (mode : string) (done : list location)
    (loc : location) (rest : list location) (w w1 : W) (c : connection)
    (e : exn) :
  let body := ingest_location E mode false (Some c) in
  let before := for_each done body w1 in
  let pass := body loc (final before) in
  let run := ingest E mode (Some (done ++ loc :: rest)%list) false w in
  snowflake_connect E w = (w1, Ok c) ->
  outcome before = Ok tt ->
  outcome pass = Raise e ->
  log run = (EConnect :: log before ++ log pass ++ [EConnClose c])%list
  /\ outcome run
     = match snd (connection_close E c (final pass)) with
       | Ok _ => Raise e
       | Raise e' => Raise e'
       end.
Proof.
  intros body before pass run Hc Hbefore Hpass.
  destruct (ingest_connected E mode (Some (done ++ loc :: rest)%list) w w1 c Hc)
    as [Hlog Hout].
  cbv zeta in Hlog, Hout. unfold configured in Hlog, Hout.
  fold body in Hlog, Hout.
  assert (Hloop : for_each (done ++ loc :: rest)%list body w1
                  = {| final := final pass;
                       log := log before ++ log pass;
                       outcome := Raise e |}).
  { rewrite (for_each_app_ok done (loc :: rest) body w1 Hbefore).
    fold before. simpl for_each.
    rewrite (bind_raise _ _ (final before) e Hpass).
    reflexivity. }
  rewrite Hloop in Hlog, Hout. cbn [final log outcome] in Hlog, Hout.
  unfold run. rewrite Hlog, Hout, call_outcome, <- app_assoc.
  split; reflexivity.
Qed.

(** X14: the default list stands in for an absent list only, not for an
    empty one.  Over an empty list a dry run makes no call and returns, and
    a run that loads makes the connection, closes it and makes no other
    call.  With no list, the first call of a dry run asks the geocoder for
    the first default location. *)
Theorem defaults_only_when_absent (mode : string) (w : W) :
  (log (ingest E mode (Some []) true w) = []
   /\ outcome (ingest E mode (Some []) true w) = Ok tt)
  /\ match snowflake_connect E w with
     | (w1, Ok c) =>
         log (ingest E mode (Some []) false w) = [EConnect; EConnClose c]
         /\ outcome (ingest E mode (Some []) false w)
            = snd (connection_close E c w1)
     | (_, Raise e) =>
         log (ingest E mode (Some []) false w) = [EConnect]
     end
  /\ exists rest,
       log (ingest E mode None true w)
       = EGet nominatim_url
           [("city", PStr "Atlanta"); ("state", PStr "Georgia");
            ("format", PStr "json"); ("limit", PInt 1)] :: rest.
Proof.
  split; [| split].
  - destruct (ingest_dry_loop E mode (Some []) w) as [Hlog Hout].
    rewrite Hlog, Hout. split; reflexivity.
  - destruct (snowflake_connect E w) as [w1 [c | e]] eqn:Hc.
    + destruct (ingest_connected E mode (Some []) w w1 c Hc) as [Hlog Hout].
      cbv zeta in Hlog, Hout. cbn [configured for_each ret final log outcome]
        in Hlog, Hout.
      rewrite Hlog, Hout, call_outcome. split; [reflexivity |].
      destruct (snd (connection_close E c w1)) as [[] | e]; reflexivity.
    + unfold ingest. simpl negb. cbv iota.
      rewrite (bind_raise _ _ w e).
      * unfold get_snowflake_connection.
        rewrite (bind_raise _ _ w e)
          by (rewrite (call_run _ _ _ _ _ Hc); reflexivity).
        rewrite (call_run _ _ _ _ _ Hc). reflexivity.
      * unfold get_snowflake_connection.
        rewrite (bind_raise _ _ w e)
          by (rewrite (call_run _ _ _ _ _ Hc); reflexivity).
        reflexivity.
  - destruct (ingest_dry_loop E mode None w) as [Hlog _].
    rewrite Hlog. unfold configured, LOCATIONS.
    change (for_each (?x :: ?l) ?body) with (body x ;;; for_each l body).
    apply bind_first_call. unfold ingest_location.
    apply bind_first_call. unfold write_batch.
    apply bind_first_call. unfold get_bbox.
    apply bind_first_call. rewrite call_log.
    eexists. reflexivity.
Qed.

End RunEnd.

Lemma failed_pass_ends_run_witness :
  log (ingest (scripted stage_down) "history" (Some [atlanta; boone]) false tt)
  = (EConnect
     :: log (ingest_location (scripted stage_down) "history" false
               (Some (Connection 1)) atlanta tt)
     ++ [EConnClose (Connection 1)])%list
  /\ outcome (ingest (scripted stage_down) "history" (Some [atlanta; boone])
                false tt)
     = Raise (Exn "ProgrammingError").
Proof.
  apply (failed_pass_ends_run (scripted stage_down) "history" [] atlanta
           [boone] tt tt (Connection 1) (Exn "ProgrammingError"));
    vm_compute; reflexivity.
Defined.

(** ** Values under their names *)

Lemma zip_rows_columns (label mode : string) (lat lon : float) (ts : list Z)
    (a0 a1 a2 a3 : list float) :
  same_length ts a0 a1 a2 a3 = true ->
  let col name :=
    map (fun r => dict_get (tagged_record mode r) name)
        (zip_rows label lat lon ts a0 a1 a2 a3) in
  col "temperature_2m" = map (fun x => Some (JNum x)) a0
  /\ col "is_day" = map (fun x => Some (JNum x)) a1
  /\ col "precipitation_probability" = map (fun x => Some (JNum x)) a2
  /\ col "precipitation" = map (fun x => Some (JNum x)) a3.
Proof.
  revert a0 a1 a2 a3.
  induction ts as [| t ts IH]; intros a0 a1 a2 a3 H;
    apply same_length_inv in H; destruct H as [H0 [H1 [H2 H3]]];
    destruct a0, a1, a2, a3; try discriminate.
  - repeat split.
  - assert (Hs : same_length ts a0 a1 a2 a3 = true).
    { unfold same_length. repeat rewrite andb_true_iff.
      simpl in *. repeat split; apply Nat.eqb_eq; lia. }
    destruct (IH _ _ _ _ Hs) as [I0 [I1 [I2 I3]]].
    cbv zeta in *. cbn [zip_rows map].
    rewrite I0, I1, I2, I3. repeat split.
Qed.

(** X15: the values of a variable are written under the name it was asked
    for.  The fetch asks for its hourly variables by a list of names; for
    an aligned response, the values the written records of its table hold
    under the name at a place of that list are, row after row, the values
    of the variable at that place of the response. *)
Theorem values_under_their_names (r : response) (label mode fetch_mode : string)
    (latitudes longitudes : list float) :
  aligned r = true ->
  exists df,
    parse_response r label = Ok df
    /\ forall i name,
         nth_error (hourly_names (weather_params latitudes longitudes fetch_mode)) i
         = Some name ->
         map (fun row => dict_get (tagged_record mode row) name) df
         = map (fun x => Some (JNum x)) (Variables (Hourly r) i).
Proof.
  intros Hr. rewrite (parse_response_aligned r label Hr).
  eexists. split; [reflexivity |].
  intros i name. unfold hourly_names. rewrite weather_params_hourly.
  destruct (zip_rows_columns label mode (Latitude r) (Longitude r) (timestamps r)
              _ _ _ _ Hr) as [H0 [H1 [H2 H3]]].
  destruct i as [| [| [| [| i]]]]; simpl; intros H;
    try (injection H as <-; assumption).
  destruct i; discriminate.
Qed.

Lemma values_under_their_names_witness :
  exists df,
    parse_response two_hours "Atlanta, Georgia" = Ok df
    /\ map (fun row => dict_get (tagged_record "history" row) "is_day") df
       = [Some (JNum 1%float); Some (JNum 1%float)].
Proof.
  destruct (values_under_their_names two_hours "Atlanta, Georgia" "history"
              "forecast" [] [] eq_refl) as [df [Hparse Hcols]].
  exists df. split; [exact Hparse |].
  exact (Hcols 1%nat "is_day" eq_refl).
Defined.

(** ** The command line *)

Lemma has_char_app (c : ascii) (a b : string) :
  has_char c (a ++ b) = (has_char c a || has_char c b)%bool.
Proof.
  induction a as [| x a IH]; simpl; [reflexivity |].
  rewrite IH. apply orb_assoc.
Qed.

(** A text with a comma is cut at its first comma. *)
Lemma split_once_app (a b : string) :
  has_char "," a = false -> split_once (a ++ "," ++ b) = [a; b].
Proof.
  change ("," ++ b) with (String "," b).
  induction a as [| x a IH]; simpl; intros H; [reflexivity |].
  apply orb_false_iff in H. destruct H as [Hx Ha].
  rewrite Hx, (IH Ha). reflexivity.
Qed.

Lemma split_once_comma (s : string) :
  has_char "," s = true ->
  exists a b, s = a ++ "," ++ b /\ has_char "," a = false.
Proof.
  induction s as [| x s IH]; simpl; [discriminate |].
  destruct (Ascii.eqb x ",") eqn:Hx; simpl.
  - intros _. apply Ascii.eqb_eq in Hx. subst x.
    exists "", s. split; reflexivity.
  - intros H. destruct (IH H) as [a [b [-> Ha]]].
    exists (String x a), b. simpl. rewrite Hx, Ha. split; reflexivity.
Qed.

Lemma last_char_none (s : string) : last_char s = None -> s = "".
Proof.
  destruct s as [| c s]; [reflexivity |].
  simpl. destruct (last_char s); discriminate.
Qed.

Lemma lstrip_first (s : string) :
  match lstrip s with
  | EmptyString => True
  | String c _ => is_space c = false
  end.
Proof.
  induction s as [| c s IH]; simpl; [exact I |].
  destruct (is_space c) eqn:Hc; [exact IH | exact Hc].
Qed.

Lemma lstrip_last (s : string) :
  lstrip s = "" \/ last_char (lstrip s) = last_char s.
Proof.
  induction s as [| c s IH]; simpl; [left; reflexivity |].
  destruct (is_space c); [| right; reflexivity].
  destruct IH as [IH | IH]; [left; exact IH |].
  destruct (last_char s) eqn:Hl.
  - right. exact IH.
  - left. rewrite (last_char_none s Hl). reflexivity.
Qed.

Lemma rstrip_last (s : string) :
  match last_char (rstrip s) with
  | None => True
  | Some c => is_space c = false
  end.
Proof.
  induction s as [| c s IH]; simpl; [exact I |].
  destruct (rstrip s) as [| c' t].
  - destruct (is_space c) eqn:Hc; simpl; [exact I | exact Hc].
  - change (last_char (String c (String c' t)))
      with (match last_char (String c' t) with
            | None => Some c
            | Some d => Some d
            end).
    destruct (last_char (String c' t)) eqn:Hl; [exact IH |].
    apply last_char_none in Hl. discriminate.
Qed.

Lemma stripped_strip (s : string) : stripped (strip s) = true.
Proof.
  unfold stripped, strip. apply andb_true_iff. split.
  - pose proof (lstrip_first (rstrip s)) as H.
    destruct (lstrip (rstrip s)); [reflexivity | rewrite H; reflexivity].
  - destruct (lstrip_last (rstrip s)) as [H | H]; rewrite H; [reflexivity |].
    pose proof (rstrip_last s) as Hr.
    destruct (last_char (rstrip s)); [rewrite Hr |]; reflexivity.
Qed.

Lemma strip_space_cons (c : ascii) (s : string) :
  is_space c = true -> strip (String c s) = strip s.
Proof.
  intros Hc. unfold strip. simpl.
  destruct (rstrip s); simpl; rewrite Hc; reflexivity.
Qed.

(** X16: what [parse_location_arg] makes of an argument.  An argument
    without a comma stays a free-form name, as it is.  An argument with a
    comma always becomes a pair: the text before its first comma and the
    text after it, each without the white space at its ends.  So no
    free-form name that has a comma comes out of it. *)
Theorem parse_location_arg_parts (value : string) :
  match parse_location_arg value with
  | FreeForm q => q = value /\ has_char "," value = false
  | CityState city state =>
      exists before after,
        value = before ++ "," ++ after
        /\ has_char "," before = false
        /\ city = strip before /\ state = strip after
        /\ stripped city = true /\ stripped state = true
  end.
Proof.
  unfold parse_location_arg.
  destruct (has_char "," value) eqn:Hc; [| split; reflexivity].
  destruct (split_once_comma value Hc) as [a [b [-> Ha]]].
  rewrite (split_once_app a b Ha). cbn [map].
  exists a, b. repeat split; try exact Ha; apply stripped_strip.
Qed.

(** X17: the label of a pair reads back as the pair.  [ingest] labels a
    pair with its city, a comma, a space and its state; when the city has no
    comma and neither part has white space at its ends,
    [parse_location_arg] makes the same pair of that label. *)
Theorem label_reads_back (city state : string) :
  has_char "," city = false ->
  strip city = city ->
  strip state = state ->
  parse_location_arg (label_of (CityState city state)) = CityState city state.
Proof.
  intros Hc Hcity Hstate.
  unfold parse_location_arg, label_of.
  rewrite has_char_app, Hc. cbn [has_char orb Ascii.eqb].
  change (city ++ ", " ++ state) with (city ++ "," ++ String " " state).
  replace (has_char "," (String "," (String " " state))) with true
    by reflexivity.
  rewrite (split_once_app city (String " " state) Hc). cbn [map].
  rewrite (strip_space_cons " " state eq_refl), Hcity, Hstate.
  reflexivity.
Qed.

Lemma label_reads_back_witness :
  parse_location_arg "San Francisco, CA" = CityState "San Francisco" "CA".
Proof.
  apply (label_reads_back "San Francisco" "CA"); reflexivity.
Defined.

(** ** From the geocoder to the fetch *)

Section PassFlow.
Context {W : Type} (E : Env W).

(** X18: what a pass hands from one request to the next.  When the
    geocoder answers with a first candidate whose box is south, north,
    west, east, the second request asks the grid of that box written south,
    west, north, east.  When the provider answers it with grid points, the
    third request is the fetch for the latitudes and the longitudes of
    those points, in their order: also when there is no grid point, the
    fetch then being asked for no point. *)
Theorem pass_data_flow (mode : string) (loc : location) (w w1 w2 : W)
    (c : candidate) (others : list candidate) (s n we e : string)
    (more : list string) (cells : list response) :
  let box := {| south_lat := s; north_lat := n; west_lon := we; east_lon := e |} in
  requests_get_json E nominatim_url (bbox_params loc) w = (w1, Ok (c :: others)) ->
  boundingbox c = Some (s :: n :: we :: e :: more) ->
  weather_api E forecast_url (grid_params box) w1 = (w2, Ok cells) ->
  exists grid_request fetch_request rest,
    log (write_batch E mode loc w)
    = EGet nominatim_url (bbox_params loc)
      :: EWeatherApi forecast_url grid_request
      :: EWeatherApi forecast_url fetch_request :: rest
    /\ dict_get grid_request "bounding_box"
       = Some (PStr (s ++ "," ++ we ++ "," ++ n ++ "," ++ e))
    /\ dict_get fetch_request "latitude" = Some (PFloats (map Latitude cells))
    /\ dict_get fetch_request "longitude" = Some (PFloats (map Longitude cells)).
Proof.
  intros box Hg Hbox Hgrid.
  assert (Hjson : bbox_of_json (c :: others) = Ok box).
  { unfold bbox_of_json. cbn [py_index nth_error rbind].
    rewrite Hbox. reflexivity. }
  pose proof (get_bbox_run E loc w w1 (c :: others) Hg) as Hrun.
  rewrite Hjson in Hrun.
  assert (Hcells : get_grid_points E box w1
                   = {| final := w2;
                        log := [EWeatherApi forecast_url (grid_params box)];
                        outcome := Ok (map Latitude cells, map Longitude cells) |}).
  { unfold get_grid_points, bind.
    rewrite (call_run _ _ _ _ _ Hgrid). reflexivity. }
  unfold write_batch.
  rewrite (bind_ok _ _ w box) by (rewrite Hrun; reflexivity).
  rewrite Hrun. cbn [final log outcome].
  rewrite (bind_ok _ _ w1 (map Latitude cells, map Longitude cells))
    by (rewrite Hcells; reflexivity).
  rewrite Hcells. cbn [final log outcome fst snd].
  match goal with
  | |- context [log (bind ?m ?f w2)] =>
      destruct (bind_log_prefix m f w2) as [rest Hrest]; rewrite Hrest
  end.
  unfold get_weather. rewrite call_log.
  exists (grid_params box),
         (weather_params (map Latitude cells) (map Longitude cells) mode), rest.
  split; [reflexivity |]. split; [reflexivity |].
  unfold weather_params. destruct (String.eqb mode "history"); split; reflexivity.
Qed.

End PassFlow.

Lemma pass_data_flow_witness :
  exists grid_request fetch_request rest,
    log (write_batch (scripted fair) "history" atlanta tt)
    = EGet nominatim_url (bbox_params atlanta)
      :: EWeatherApi forecast_url grid_request
      :: EWeatherApi forecast_url fetch_request :: rest
    /\ dict_get grid_request "bounding_box"
       = Some (PStr "33.6478079,-84.551068,33.8868859,-84.28956")
    /\ dict_get fetch_request "latitude" = Some (PFloats [33.75%float])
    /\ dict_get fetch_request "longitude" = Some (PFloats [(-84.375)%float]).
Proof.
  exact (pass_data_flow (scripted fair) "history" atlanta tt tt tt
           atlanta_candidate [] "33.6478079" "33.8868859" "-84.551068"
           "-84.28956" [] [two_hours] eq_refl eq_refl eq_refl).
Defined.
